(** * Aave loan monitor: position builder, loan metrics, portfolio rollup

    A shallow embedding of the computation layer of [src/App.tsx]
    ([weightedAverage], [toAssetPosition], [buildLoanPositions],
    [computeLoanMetrics] and the portfolio [useMemo] of [App]).
    Around it: the health classifications ([healthLabel],
    [portfolioHealthFactorBand], [toBadgeVariant]), the loan selection of
    [App], and the fetchers ([fetchFromAaveSubgraph], [fetchUsdPrices],
    [fetchLoans]) over the replies of the network.

    A JavaScript [number] is an IEEE 754 binary64 value, so it is modelled by
    Rocq's primitive [float], which is the same format with the same
    round-to-nearest-even operations, [infinity], signed zeros and one [nan].
    Properties of the primitive operations are obtained from their
    specification over [spec_float] ([FloatAxioms]). *)

From Stdlib Require Import ZArith Lia List Bool String Ascii.
From Stdlib Require Import QArith Lqa.
From Stdlib Require Import Decimal DecimalString.
From Stdlib Require Import Floats.
Import ListNotations.

Set Warnings "-inexact-float".
Local Open Scope float_scope.

(** ** JavaScript numbers *)

Module Js.

(** [a > b] on numbers: false as soon as one side is NaN. *)
Definition gt (a b : float) : bool := b <? a.

(** [Number.isFinite]. *)
Definition isFinite (x : float) : bool := is_finite x.

(** [Math.max] and [Math.min] of two numbers (NaN is contagious and
    [+0] counts as larger than [-0]). *)
Definition Math_max (a b : float) : float :=
  if is_nan a || is_nan b then nan
  else if a <? b then b
  else if b <? a then a
  else if get_sign a then b else a.

Definition Math_min (a b : float) : float :=
  if is_nan a || is_nan b then nan
  else if a <? b then a
  else if b <? a then b
  else if get_sign a then a else b.

(** [SameValueZero]: equal as numbers ([+0] and [-0] alike), or both NaN. *)
Definition sameValueZero (x y : float) : bool :=
  (x =? y) || (is_nan x && is_nan y).

(** An array length read as a number: the nearest binary64 value. *)
Definition of_nat (k : nat) : float :=
  SF2Prim (binary_normalize prec emax (Z.of_nat k) 0 false).

(** [String(index)] for an array index. *)
Definition string_of_index (k : nat) : string :=
  NilEmpty.string_of_uint (Nat.to_uint k).

(** [s.replaceAll(',', '')]. *)
Fixpoint removeCommas (s : string) : string :=
  match s with
  | EmptyString => EmptyString
  | String c rest =>
      if Ascii.eqb c "," then removeCommas rest else String c (removeCommas rest)
  end.

End Js.

Notation "x >? y" := (Js.gt x y) (at level 70, no associativity) : float_scope.

(** ** Data model *)

Module Raw.

Record Reserve := {
  symbol : string;
  decimals : float;
  underlyingAsset : string;
  baseLTVasCollateral : string;
  reserveLiquidationThreshold : string;
  liquidityRate : string;
  variableBorrowRate : string
}.

Record RawUserReserve := {
  currentATokenBalance : string;
  currentTotalDebt : string;
  usageAsCollateralEnabledOnUser : bool;
  reserve : Reserve
}.

(** [RawUserReserve & { __marketName: string }]. *)
Record RawUserReserveWithMarket := {
  withoutMarket : RawUserReserve;
  __marketName : string
}.

End Raw.

(** A record with its market tag is used wherever a plain record is expected. *)
Coercion Raw.withoutMarket : Raw.RawUserReserveWithMarket >-> Raw.RawUserReserve.

Record AssetPosition := {
  symbol : string;
  address : string;
  amount : float;
  usdPrice : float;
  usdValue : float;
  collateralEnabled : bool;
  maxLTV : float;
  liqThreshold : float;
  supplyRate : float;
  borrowRate : float
}.

Record LoanPosition := {
  id : string;
  marketName : string;
  borrowed : AssetPosition;
  supplied : list AssetPosition;
  totalSuppliedUsd : float;
  totalBorrowedUsd : float
}.

Record FetchState := {
  wallet : string;
  loans : list LoanPosition;
  lastUpdated : string
}.

Record Computed := {
  units : float;
  px : float;
  debt : float;
  collateralUSD : float;
  equity : float;
  ltv : float;
  leverage : float;
  healthFactor : float;
  liqPrice : float;
  collateralUSDAtLiq : float;
  ltvAtLiq : float;
  priceDropToLiq : float;
  supplyEarnUSD : float;
  borrowCostUSD : float;
  deployEarnUSD : float;
  netEarnUSD : float;
  netAPYOnEquity : float;
  maxBorrowByLTV : float;
  borrowHeadroom : float;
  borrowPowerUsed : float;
  equityMoveFor10Pct : float;
  collateralBufferUSD : float;
  alertHF : bool;
  alertLTV : bool;
  ltvMax : float;
  lt : float;
  rSupply : float;
  rBorrow : float;
  rDeploy : float;
  primaryCollateralSymbol : string
}.

Module Portfolio.

Record t := {
  loanCount : nat;
  totalDebt : float;
  totalCollateral : float;
  totalNetWorth : float;
  totalSupplyEarn : float;
  totalBorrowCost : float;
  totalDeployEarn : float;
  totalNetEarn : float;
  averageHealthFactor : float;
  averageSupplyApy : float;
  averageBorrowApy : float;
  portfolioNetApy : float;
  borrowPowerUsed : float
}.

End Portfolio.

(** ** Weighted aggregator *)

(** The two folds of the engine, written once over the arithmetic they use:
    at [float] they are the program; at [Q] they are the same computation
    without rounding. *)
Section OverNumbers.

Context {num : Type}.
Variables (zero : num) (add mul div : num -> num -> num) (leb : num -> num -> bool).

(** [items.reduce((sum, item) => sum + f(item), 0)]. *)
Definition sumOver {A : Type} (f : A -> num) (items : list A) : num :=
  fold_left (fun sum item => add sum (f item)) items zero.

Definition weightedAverageOver {A : Type} (weight : A -> num) (items : list A)
    (valueSelector : A -> num) : num :=
  let totalWeight := sumOver weight items in
  if leb totalWeight zero then zero
  else
    let weighted := sumOver (fun item => mul (valueSelector item) (weight item)) items in
    div weighted totalWeight.

End OverNumbers.

Definition sumOf {A : Type} (f : A -> float) (items : list A) : float :=
  sumOver 0 PrimFloat.add f items.

Definition weightedAverage (items : list AssetPosition)
    (valueSelector : AssetPosition -> float) : float :=
  weightedAverageOver 0 PrimFloat.add PrimFloat.mul PrimFloat.div PrimFloat.leb
    usdValue items valueSelector.

(** The folds in exact rational arithmetic. *)
Definition sumOfQ {A : Type} (f : A -> Q) (items : list A) : Q :=
  sumOver 0%Q Qplus f items.

Definition weightedAverageQ {A : Type} (weight : A -> Q) (items : list A)
    (valueSelector : A -> Q) : Q :=
  weightedAverageOver 0%Q Qplus Qmult Qdiv Qle_bool weight items valueSelector.

(** ** Loan metrics calculator *)

(** The callback of the [reduce] that selects the primary collateral:
    [(max, current) => current.usdValue > max.usdValue ? current : max]. *)
Definition larger (max current : AssetPosition) : AssetPosition :=
  if usdValue current >? usdValue max then current else max.

(** [loan.supplied.length > 0 ? loan.supplied.reduce(larger) : null]; a
    [reduce] without initial value starts from the first element. *)
Definition primaryOf (items : list AssetPosition) : option AssetPosition :=
  match items with
  | [] => None
  | first :: rest => Some (fold_left larger rest first)
  end.

(** [primary?.field ?? fallback]. *)
Definition orElse {A B : Type} (field : A -> B) (primary : option A) (fallback : B) : B :=
  match primary with
  | Some p => field p
  | None => fallback
  end.

(** [computeLoanMetrics(loan: LoanPosition | null)]; the first branch is the
    "no selection" record. *)
Definition computeLoanMetrics (loan : option LoanPosition) : Computed :=
  match loan with
  | None =>
      {|
        units := 0;
        px := 0;
        debt := 0;
        collateralUSD := 0;
        equity := 0;
        ltv := 0;
        leverage := 0;
        healthFactor := infinity;
        liqPrice := infinity;
        collateralUSDAtLiq := infinity;
        ltvAtLiq := 0;
        priceDropToLiq := 0;
        supplyEarnUSD := 0;
        borrowCostUSD := 0;
        deployEarnUSD := 0;
        netEarnUSD := 0;
        netAPYOnEquity := 0;
        maxBorrowByLTV := 0;
        borrowHeadroom := 0;
        borrowPowerUsed := 0;
        equityMoveFor10Pct := 0;
        collateralBufferUSD := 0;
        alertHF := false;
        alertLTV := false;
        ltvMax := 0;
        lt := 0;
        rSupply := 0;
        rBorrow := 0;
        rDeploy := 0;
        primaryCollateralSymbol := "—"
      |}
  | Some loan =>
      let debt := totalBorrowedUsd loan in
      let collateralUSD := totalSuppliedUsd loan in
      let equity := collateralUSD - debt in

      let ltvMax := weightedAverage (supplied loan) maxLTV in
      let lt := weightedAverage (supplied loan) liqThreshold in
      let rSupply := weightedAverage (supplied loan) supplyRate in
      let rBorrow := borrowRate (borrowed loan) in
      let rDeploy := 0 in

      let ltv := if collateralUSD >? 0 then debt / collateralUSD else 0 in
      let leverage := if equity >? 0 then collateralUSD / equity else infinity in
      let healthFactor := if debt >? 0 then (collateralUSD * lt) / debt else infinity in

      let primary := primaryOf (supplied loan) in

      let units := orElse amount primary 0 in
      let px := orElse usdPrice primary 0 in
      let primaryCollateralSymbol := orElse symbol primary "—"%string in

      let collateralUSDAtLiq := if lt >? 0 then debt / lt else infinity in
      let collateralOtherUSD := collateralUSD - orElse usdValue primary 0 in
      let primaryUsdAtLiq := collateralUSDAtLiq - collateralOtherUSD in
      let liqPrice := if units >? 0 then primaryUsdAtLiq / units else infinity in
      let ltvAtLiq := if collateralUSDAtLiq >? 0 then debt / collateralUSDAtLiq else 0 in
      let priceDropToLiq :=
        if (px >? 0) && Js.isFinite liqPrice then (px - liqPrice) / px else 0 in

      let supplyEarnUSD := collateralUSD * rSupply in
      let borrowCostUSD := debt * rBorrow in
      let deployEarnUSD := debt * rDeploy in

      let netEarnUSD := supplyEarnUSD + deployEarnUSD - borrowCostUSD in
      let netAPYOnEquity := if equity >? 0 then netEarnUSD / equity else 0 in

      let maxBorrowByLTV := collateralUSD * ltvMax in
      let borrowHeadroom := maxBorrowByLTV - debt in
      let borrowPowerUsed := if maxBorrowByLTV >? 0 then debt / maxBorrowByLTV else 0 in

      let equityMoveFor10Pct := if Js.isFinite leverage then leverage * 0.1 else 0 in
      let collateralBufferUSD := collateralUSD - collateralUSDAtLiq in

      let alertHF := healthFactor <? 1.5 in
      let alertLTV := ltv >? 0.7 * lt in

      {| units := units;
         px := px;
         debt := debt;
         collateralUSD := collateralUSD;
         equity := equity;
         ltv := ltv;
         leverage := leverage;
         healthFactor := healthFactor;
         liqPrice := liqPrice;
         collateralUSDAtLiq := collateralUSDAtLiq;
         ltvAtLiq := ltvAtLiq;
         priceDropToLiq := priceDropToLiq;
         supplyEarnUSD := supplyEarnUSD;
         borrowCostUSD := borrowCostUSD;
         deployEarnUSD := deployEarnUSD;
         netEarnUSD := netEarnUSD;
         netAPYOnEquity := netAPYOnEquity;
         maxBorrowByLTV := maxBorrowByLTV;
         borrowHeadroom := borrowHeadroom;
         borrowPowerUsed := borrowPowerUsed;
         equityMoveFor10Pct := equityMoveFor10Pct;
         collateralBufferUSD := collateralBufferUSD;
         alertHF := alertHF;
         alertLTV := alertLTV;
         ltvMax := ltvMax;
         lt := lt;
         rSupply := rSupply;
         rBorrow := rBorrow;
         rDeploy := rDeploy;
         primaryCollateralSymbol := primaryCollateralSymbol |}
  end.

(** ** Portfolio aggregator *)

(** The body of the portfolio [useMemo] once [metrics] is computed. *)
Definition portfolioOfMetrics (metrics : list Computed) : Portfolio.t :=
  let totalDebt := sumOf debt metrics in
  let totalCollateral := sumOf collateralUSD metrics in
  let totalNetWorth := sumOf equity metrics in
  let totalSupplyEarn := sumOf supplyEarnUSD metrics in
  let totalBorrowCost := sumOf borrowCostUSD metrics in
  let totalDeployEarn := sumOf deployEarnUSD metrics in
  let totalNetEarn := sumOf netEarnUSD metrics in
  let totalMaxBorrow := sumOf maxBorrowByLTV metrics in

  let finiteHealthFactors := filter Js.isFinite (map healthFactor metrics) in
  let averageHealthFactor :=
    if Nat.ltb 0 (List.length finiteHealthFactors)
    then sumOf (fun item => item) finiteHealthFactors
         / Js.of_nat (List.length finiteHealthFactors)
    else infinity in

  {| Portfolio.loanCount := List.length metrics;
     Portfolio.totalDebt := totalDebt;
     Portfolio.totalCollateral := totalCollateral;
     Portfolio.totalNetWorth := totalNetWorth;
     Portfolio.totalSupplyEarn := totalSupplyEarn;
     Portfolio.totalBorrowCost := totalBorrowCost;
     Portfolio.totalDeployEarn := totalDeployEarn;
     Portfolio.totalNetEarn := totalNetEarn;
     Portfolio.averageHealthFactor := averageHealthFactor;
     Portfolio.averageSupplyApy :=
       if totalCollateral >? 0 then totalSupplyEarn / totalCollateral else 0;
     Portfolio.averageBorrowApy :=
       if totalDebt >? 0 then totalBorrowCost / totalDebt else 0;
     Portfolio.portfolioNetApy :=
       if totalNetWorth >? 0 then totalNetEarn / totalNetWorth else 0;
     Portfolio.borrowPowerUsed :=
       if totalMaxBorrow >? 0 then totalDebt / totalMaxBorrow else 0 |}.

(** The portfolio [useMemo] of [App]: [null] without a result or without
    loans. *)
Definition portfolio (result : option FetchState) : option Portfolio.t :=
  match result with
  | None => None
  | Some result =>
      if Nat.eqb (List.length (loans result)) 0 then None
      else
        let metrics := map (fun loan => computeLoanMetrics (Some loan)) (loans result) in
        Some (portfolioOfMetrics metrics)
  end.

(** ** Unit converters and position builder *)

(** [array.map((item, index) => f(item, index))]. *)
Fixpoint mapi_from {A B : Type} (f : A -> nat -> B) (start : nat) (items : list A) : list B :=
  match items with
  | [] => []
  | item :: rest => f item start :: mapi_from f (S start) rest
  end.

Definition mapi {A B : Type} (f : A -> nat -> B) (items : list A) : list B :=
  mapi_from f 0 items.

(** [Map<string, RawUserReserveWithMarket[]>]: the entries in insertion
    order, each key once. *)
Definition MarketMap : Type := list (string * list Raw.RawUserReserveWithMarket).

Fixpoint map_get (m : MarketMap) (key : string)
    : option (list Raw.RawUserReserveWithMarket) :=
  match m with
  | [] => None
  | (k, v) :: rest => if String.eqb k key then Some v else map_get rest key
  end.

(** [m.set(key, value)]: an existing key keeps its place. *)
Fixpoint map_set (m : MarketMap) (key : string)
    (value : list Raw.RawUserReserveWithMarket) : MarketMap :=
  match m with
  | [] => [(key, value)]
  | (k, v) :: rest =>
      if String.eqb k key then (k, value) :: rest
      else (k, v) :: map_set rest key value
  end.

(** [Map<string, number>], through its [get]. *)
Definition PriceMap : Type := string -> option float.

Section PositionBuilder.

(** Built-ins of the JavaScript host, taken as they are: [Number(s)] on a
    string, [10 ** x], [s.toUpperCase()] and [s.toLowerCase()]. *)
Variable Number : string -> float.
Variable pow10 : float -> float.
Variable toUpperCase toLowerCase : string -> string.

Definition n (value : string + float) : float :=
  let parsed :=
    match value with
    | inr v => v
    | inl s => Number (Js.removeCommas s)
    end in
  if Js.isFinite parsed then parsed else 0.

Definition clamp (value min max : float) : float :=
  Js.Math_min max (Js.Math_max min value).

Definition parseBalance (raw : string) (decimals : float) : float :=
  let normalized := Number raw / pow10 decimals in
  if Js.isFinite normalized then normalized else 0.

Definition fromBps (raw : string) : float :=
  clamp (n (inl raw) / 10000) 0 0.99.

Definition fromRay (raw : string) : float :=
  Js.Math_max 0 (n (inl raw) / pow10 27).

Definition toAssetPosition (raw : Raw.RawUserReserve) (amount : float)
    (prices : PriceMap) : AssetPosition :=
  let address := toLowerCase (Raw.underlyingAsset (Raw.reserve raw)) in
  let symbol := toUpperCase (Raw.symbol (Raw.reserve raw)) in
  let usdPrice := match prices symbol with Some v => v | None => 0 end in
  {| symbol := symbol;
     address := address;
     amount := amount;
     usdPrice := usdPrice;
     usdValue := amount * usdPrice;
     collateralEnabled := Raw.usageAsCollateralEnabledOnUser raw;
     maxLTV := fromBps (Raw.baseLTVasCollateral (Raw.reserve raw));
     liqThreshold := fromBps (Raw.reserveLiquidationThreshold (Raw.reserve raw));
     supplyRate := fromRay (Raw.liquidityRate (Raw.reserve raw));
     borrowRate := fromRay (Raw.variableBorrowRate (Raw.reserve raw)) |}.

(** The [forEach] that fills [loansByMarket]. *)
Definition groupByMarket (reserves : list Raw.RawUserReserveWithMarket) : MarketMap :=
  fold_left
    (fun loansByMarket reserve =>
       let group :=
         match map_get loansByMarket (Raw.__marketName reserve) with
         | Some g => g
         | None => []
         end in
       map_set loansByMarket (Raw.__marketName reserve) (group ++ [reserve]))
    reserves [].

Definition suppliedAssetsOf (marketReserves : list Raw.RawUserReserveWithMarket)
    (prices : PriceMap) : list AssetPosition :=
  filter (fun entry => amount entry >? 0)
    (map (fun entry : Raw.RawUserReserveWithMarket =>
            let amount :=
              parseBalance (Raw.currentATokenBalance entry)
                           (Raw.decimals (Raw.reserve entry)) in
            toAssetPosition entry amount prices)
         marketReserves).

Definition borrowedAssetsOf (marketReserves : list Raw.RawUserReserveWithMarket)
    (prices : PriceMap) : list AssetPosition :=
  filter (fun entry => amount entry >? 0)
    (map (fun entry : Raw.RawUserReserveWithMarket =>
            let amount :=
              parseBalance (Raw.currentTotalDebt entry)
                           (Raw.decimals (Raw.reserve entry)) in
            toAssetPosition entry amount prices)
         marketReserves).

(** The callback of the [flatMap] over the entries of [loansByMarket]. *)
Definition loansOfMarket (prices : PriceMap)
    (marketEntry : string * list Raw.RawUserReserveWithMarket) : list LoanPosition :=
  let '(marketName, marketReserves) := marketEntry in
  let suppliedAssets := suppliedAssetsOf marketReserves prices in
  let borrowedAssets := borrowedAssetsOf marketReserves prices in
  let collateralSupplies := filter collateralEnabled suppliedAssets in
  mapi (fun borrowed index =>
          {| id := (marketName ++ "-" ++ address borrowed ++ "-"
                    ++ Js.string_of_index index)%string;
             marketName := marketName;
             borrowed := borrowed;
             supplied := collateralSupplies;
             totalBorrowedUsd := usdValue borrowed;
             totalSuppliedUsd := sumOf usdValue collateralSupplies |})
       borrowedAssets.

Definition buildLoanPositions (reserves : list Raw.RawUserReserveWithMarket)
    (prices : PriceMap) : list LoanPosition :=
  let loansByMarket := groupByMarket reserves in
  flat_map (loansOfMarket prices) loansByMarket.

End PositionBuilder.

(** ** Health status and selection *)

Module BadgeTone.

Inductive t : Set := neutral | positive | warning | danger.

End BadgeTone.

Module BadgeVariant.

(** ['default' | 'positive' | 'warning' | 'destructive'], from
    [components/ui/badge.tsx]. *)
Inductive t : Set := default | positive | warning | destructive.

End BadgeVariant.

Record HealthStatus := {
  label : string;
  tone : BadgeTone.t
}.

Definition healthLabel (hf : float) : HealthStatus :=
  if negb (Js.isFinite hf) || (hf <=? 0)
  then {| label := "Invalid"; tone := BadgeTone.danger |}
  else if hf <? 1.1 then {| label := "Danger"; tone := BadgeTone.danger |}
  else if hf <? 1.5 then {| label := "Tight"; tone := BadgeTone.warning |}
  else if hf <? 2 then {| label := "OK"; tone := BadgeTone.neutral |}
  else {| label := "Safe"; tone := BadgeTone.positive |}.

Record HealthBand := {
  guidance : string;
  valueClassName : string
}.

Definition portfolioHealthFactorBand (hf : float) : HealthBand :=
  if negb (Js.isFinite hf) || (hf <=? 0)
  then {| guidance := "Invalid reading"; valueClassName := "text-[#ef4444]" |}
  else if hf <? 1.5
  then {| guidance := "Mandatory deleveraging"; valueClassName := "text-[#ef4444]" |}
  else if hf <? 1.8
  then {| guidance := "Top up collateral or reduce debt";
          valueClassName := "text-[#f59e0b]" |}
  else if hf <=? 2.2
  then {| guidance := "No new leverage, monitor closely";
          valueClassName := "text-[#84cc16]" |}
  else {| guidance := "Normal operation"; valueClassName := "text-[#22c55e]" |}.

Definition toBadgeVariant (tone : BadgeTone.t) : BadgeVariant.t :=
  match tone with
  | BadgeTone.positive => BadgeVariant.positive
  | BadgeTone.warning => BadgeVariant.warning
  | BadgeTone.danger => BadgeVariant.destructive
  | BadgeTone.neutral => BadgeVariant.default
  end.

(** [portfolioHealthFactorBand(portfolio?.averageHealthFactor ?? NaN)]. *)
Definition portfolioHealthBand (portfolio : option Portfolio.t) : HealthBand :=
  portfolioHealthFactorBand
    (match portfolio with
     | Some p => Portfolio.averageHealthFactor p
     | None => nan
     end).

(** The [selectedLoan] memo of [App]:
    [result.loans.find((loan) => loan.id === selectedLoanId)
     ?? result.loans[0] ?? null], and [null] without a result or loans. *)
Definition selectedLoan (result : option FetchState) (selectedLoanId : string)
    : option LoanPosition :=
  match result with
  | None => None
  | Some result =>
      if Nat.eqb (List.length (loans result)) 0 then None
      else
        match find (fun loan => String.eqb (id loan) selectedLoanId) (loans result) with
        | Some loan => Some loan
        | None => nth_error (loans result) 0
        end
  end.

(** The update of [selectedLoanId] after a fetch:
    [loans.some((loan) => loan.id === previousLoanId)
       ? previousLoanId : (loans[0]?.id ?? '')]. *)
Definition nextSelectedLoanId (loans : list LoanPosition) (previousLoanId : string)
    : string :=
  if existsb (fun loan => String.eqb (id loan) previousLoanId) loans
  then previousLoanId
  else match nth_error loans 0 with
       | Some loan => id loan
       | None => ""%string
       end.

(** ** Data acquisition *)

Module Market.

(** An entry of [AAVE_MARKETS]. *)
Record t := {
  marketName : string;
  graphSubgraphId : string;
  fallbackEndpoints : list string
}.

End Market.

Definition AAVE_MARKETS : list Market.t :=
  [ {| Market.marketName := "proto_mainnet_v3";
       Market.graphSubgraphId := "Cd2gEDVeqnjBn1hSeqFMitw8Q1iiyV9FYUZkLNRcL87g";
       Market.fallbackEndpoints :=
         ["https://api.thegraph.com/subgraphs/name/aave/protocol-v3"%string] |};
    {| Market.marketName := "proto_lido_v3";
       Market.graphSubgraphId := "5vxMbXRhG1oQr55MWC5j6qg78waWujx1wjeuEWDA6j3";
       Market.fallbackEndpoints := [] |} ].

Definition COINGECKO_IDS_BY_SYMBOL : list (string * string) :=
  [ ("ETH", "ethereum"); ("WETH", "weth"); ("WBTC", "wrapped-bitcoin");
    ("USDC", "usd-coin"); ("USDT", "tether"); ("DAI", "dai"); ("LDO", "lido-dao");
    ("LINK", "chainlink"); ("AAVE", "aave"); ("CRV", "curve-dao-token");
    ("MKR", "maker"); ("UNI", "uniswap"); ("SNX", "havven"); ("BAL", "balancer")
  ]%string.

(** What one [fetch] of the user-reserves query gives back: the call or the
    decoding of its body throws; or the status is not ok; or a body arrives
    with its optional [errors] (their messages) and its optional
    [data.userReserves]. *)
Inductive SubgraphReply :=
| ReplyThrows
| ReplyStatus (status : nat)
| ReplyBody (errors : option (list string))
            (userReserves : option (list Raw.RawUserReserve)).

Module MarketResult.

(** What the per-market callback of [fetchFromAaveSubgraph] returns. *)
Record t := {
  marketName : string;
  reserves : list Raw.RawUserReserve;
  failures : list string;
  sawHostedServiceRemoval : bool
}.

End MarketResult.

Module JsText.

(** [s.includes(part)]. *)
Definition includes (s part : string) : bool :=
  match String.index 0 part s with
  | Some _ => true
  | None => false
  end.

(** A string read as a condition: the empty string is falsy. *)
Definition truthy (s : option string) : bool :=
  match s with
  | Some s => negb (String.eqb s "")
  | None => false
  end.

End JsText.

Section SubgraphFetch.

(** The environment of a call: the configured key [GRAPH_API_KEY], the
    reply of the network to the query posted at each endpoint, and the
    host's [toLowerCase]. *)
Variable GRAPH_API_KEY : option string.
Variable fetch : string -> SubgraphReply.
Variable toLowerCase : string -> string.

Definition endpointsOf (market : Market.t) : list string :=
  let graphGatewayEndpoint :=
    if JsText.truthy GRAPH_API_KEY
    then Some ("https://gateway-arbitrum.network.thegraph.com/api/"
               ++ match GRAPH_API_KEY with Some key => key | None => "" end
               ++ "/subgraphs/id/" ++ Market.graphSubgraphId market)%string
    else None in
  match graphGatewayEndpoint with Some e => [e] | None => [] end
  ++ Market.fallbackEndpoints market.

(** The [for] loop over the endpoints of a market, from the failures and
    the flag gathered so far. *)
Fixpoint tryEndpoints (market : Market.t) (endpoints : list string)
    (failures : list string) (sawHostedServiceRemoval : bool) : MarketResult.t :=
  match endpoints with
  | [] =>
      {| MarketResult.marketName := Market.marketName market;
         MarketResult.reserves := [];
         MarketResult.failures := failures;
         MarketResult.sawHostedServiceRemoval := sawHostedServiceRemoval |}
  | endpoint :: rest =>
      match fetch endpoint with
      | ReplyThrows =>
          tryEndpoints market rest
            (failures ++ [(endpoint ++ " (network)")%string]) sawHostedServiceRemoval
      | ReplyStatus status =>
          tryEndpoints market rest
            (failures ++ [(endpoint ++ " (" ++ Js.string_of_index status ++ ")")%string])
            sawHostedServiceRemoval
      | ReplyBody errors userReserves =>
          if match errors with
             | Some messages => negb (Nat.eqb (List.length messages) 0)
             | None => false
             end
          then
            let removed :=
              existsb (fun message =>
                         JsText.includes (toLowerCase message) "endpoint has been removed")
                      (match errors with Some messages => messages | None => [] end) in
            tryEndpoints market rest
              (failures ++ [(endpoint ++ " (GraphQL error)")%string])
              (if removed then true else sawHostedServiceRemoval)
          else
            {| MarketResult.marketName := Market.marketName market;
               MarketResult.reserves :=
                 match userReserves with Some reserves => reserves | None => [] end;
               MarketResult.failures := [];
               MarketResult.sawHostedServiceRemoval := false |}
      end
  end.

(** The callback mapped over [AAVE_MARKETS]. *)
Definition fetchMarket (market : Market.t) : MarketResult.t :=
  let endpoints := endpointsOf market in
  if Nat.eqb (List.length endpoints) 0
  then
    {| MarketResult.marketName := Market.marketName market;
       MarketResult.reserves := [];
       MarketResult.failures :=
         ["No endpoint configured (set VITE_THE_GRAPH_API_KEY)."%string];
       MarketResult.sawHostedServiceRemoval := false |}
  else tryEndpoints market endpoints [] false.

(** What follows [Promise.all] in [fetchFromAaveSubgraph]: the tagged
    records, or the message of the error thrown. *)
Definition collectMarketResults (marketResults : list MarketResult.t)
    : list Raw.RawUserReserveWithMarket + string :=
  let successfulResults :=
    filter (fun result => Nat.eqb (List.length (MarketResult.failures result)) 0)
           marketResults in
  if Nat.ltb 0 (List.length successfulResults)
  then
    inl (flat_map
           (fun result =>
              map (fun reserve =>
                     {| Raw.withoutMarket := reserve;
                        Raw.__marketName := MarketResult.marketName result |})
                  (MarketResult.reserves result))
           successfulResults)
  else
    let sawHostedServiceRemoval :=
      existsb MarketResult.sawHostedServiceRemoval marketResults in
    if negb (JsText.truthy GRAPH_API_KEY) && sawHostedServiceRemoval
    then
      inr "Aave subgraph hosted-service endpoints were deprecated. Set VITE_THE_GRAPH_API_KEY in your .env (The Graph API key) and restart the dev server."%string
    else
      let failureText :=
        String.concat " | "
          (map (fun result =>
                  (MarketResult.marketName result ++ ": "
                   ++ String.concat ", " (MarketResult.failures result))%string)
               marketResults) in
      inr ("Unable to fetch Aave user reserves from public endpoints. Tried: "
           ++ failureText)%string.

Definition fetchFromAaveSubgraph
    : list Raw.RawUserReserveWithMarket + string :=
  collectMarketResults (map fetchMarket AAVE_MARKETS).

End SubgraphFetch.

(** What the one [fetch] of [fetchUsdPrices] gives back: it throws, the
    status is not ok, or a body arrives, read through [payload[id]?.usd]
    where that is a number. *)
Inductive PriceReply :=
| PriceThrows
| PriceStatusNotOk
| PriceBody (usdOf : string -> option float).

(** [COINGECKO_IDS_BY_SYMBOL[key]] for an upper-cased [key], which names no
    inherited property of the object. *)
Fixpoint coingeckoId (table : list (string * string)) (key : string) : option string :=
  match table with
  | [] => None
  | (symbol, id) :: rest => if String.eqb symbol key then Some id else coingeckoId rest key
  end.

(** [Array.from(new Set(items))]: the first occurrence of each string. *)
Fixpoint distinct (items : list string) : list string :=
  match items with
  | [] => []
  | item :: rest =>
      item :: filter (fun other => negb (String.eqb other item)) (distinct rest)
  end.

(** [prices.set(key, value)] on a [Map<string, number>] seen through its
    [get]. *)
Definition priceSet (prices : PriceMap) (key : string) (value : float) : PriceMap :=
  fun name => if String.eqb name key then Some value else prices name.

Section PriceFetch.

Variable toUpperCase : string -> string.
(** The reply to the one request, for the ids asked. *)
Variable fetch : list string -> PriceReply.

(** The callback of the [forEach] over the entries of the table, for the
    payload read through [usdOf]. *)
Definition recordPrice (usdOf : string -> option float) (prices : PriceMap)
    (entry : string * string) : PriceMap :=
  let '(symbol, id) := entry in
  match usdOf id with
  | Some usd => priceSet prices (toUpperCase symbol) usd
  | None => prices
  end.

Definition fetchUsdPrices (symbols : list string) : PriceMap :=
  let ids :=
    distinct
      (flat_map (fun symbol =>
                   match coingeckoId COINGECKO_IDS_BY_SYMBOL (toUpperCase symbol) with
                   | Some id => if String.eqb id "" then [] else [id]
                   | None => []
                   end)
                symbols) in
  if Nat.eqb (List.length ids) 0 then (fun _ => None)
  else
    match fetch ids with
    | PriceThrows => fun _ => None
    | PriceStatusNotOk => fun _ => None
    | PriceBody usdOf =>
        fold_left (recordPrice usdOf) COINGECKO_IDS_BY_SYMBOL (fun _ => None)
    end.

End PriceFetch.

Section LoanFetch.

(** The environment of one call of [fetchLoans]: the two services, the
    host's string and number functions, and the clock with its ISO
    rendering. *)
Variable GRAPH_API_KEY : option string.
Variable fetchReserves : string -> SubgraphReply.
Variable fetchPrices : list string -> PriceReply.
Variable Number : string -> float.
Variable pow10 : float -> float.
Variable toUpperCase toLowerCase : string -> string.
Variable updatedAt : float.
Variable toISOString : float -> string.

(** The [try] block of [fetchLoans]: the state handed to [setResult], or
    the message of the error caught, handed to [setError]. *)
Definition fetchLoans (normalizedWallet : string) : FetchState + string :=
  match fetchFromAaveSubgraph GRAPH_API_KEY fetchReserves toLowerCase with
  | inr message => inr message
  | inl reserves =>
      let reserveSymbols :=
        distinct (map (fun entry : Raw.RawUserReserveWithMarket =>
                         Raw.symbol (Raw.reserve entry)) reserves) in
      let prices := fetchUsdPrices toUpperCase fetchPrices reserveSymbols in
      let loans :=
        buildLoanPositions Number pow10 toUpperCase toLowerCase reserves prices in
      inl {| wallet := normalizedWallet;
             loans := loans;
             lastUpdated := toISOString updatedAt |}
  end.

End LoanFetch.

(** ** Specification-side definitions *)



(** The numeric fields of an asset and of a loan. *)
Definition assetNumbers (a : AssetPosition) : list float :=
  [ amount a; usdPrice a; usdValue a; maxLTV a; liqThreshold a; supplyRate a;
    borrowRate a ].

Definition loanNumbers (loan : LoanPosition) : list float :=
  totalSuppliedUsd loan :: totalBorrowedUsd loan
  :: assetNumbers (borrowed loan) ++ flat_map assetNumbers (supplied loan).

Definition finiteLoan (loan : LoanPosition) : bool :=
  forallb Js.isFinite (loanNumbers loan).


(** A weighted average over the supplied assets does not overflow: the
    supplied values do not sum to a positive number, or the weighted sum
    divided by that sum is finite. *)
Definition averageInRange (items : list AssetPosition)
    (valueSelector : AssetPosition -> float) : bool :=
  let totalWeight := sumOf usdValue items in
  (totalWeight <=? 0)
  || Js.isFinite
       (sumOf (fun item => valueSelector item * usdValue item) items / totalWeight).


(** The records of one market, in their order of arrival. *)
Definition recordsOfMarket (reserves : list Raw.RawUserReserveWithMarket)
    (market : string) : list Raw.RawUserReserveWithMarket :=
  filter (fun reserve => String.eqb (Raw.__marketName reserve) market) reserves.

(** What the [forEach] of [buildLoanPositions] maintains: each market once,
    with exactly its records so far, and every record filed. *)
Definition grouped (reserves : list Raw.RawUserReserveWithMarket) (m : MarketMap) : Prop :=
  NoDup (map fst m)
  /\ (forall key group, In (key, group) m -> group = recordsOfMarket reserves key)
  /\ (forall reserve, In reserve reserves -> In (Raw.__marketName reserve) (map fst m)).

(** *** Classes of [spec_float] values *)

Module SF.

Definition nanb (f : spec_float) : bool :=
  match f with S754_nan => true | _ => false end.

Definition finb (f : spec_float) : bool :=
  match f with S754_zero _ | S754_finite _ _ _ => true | _ => false end.

Definition signed (s : bool) (f : spec_float) : bool :=
  match f with
  | S754_nan => false
  | S754_zero s' | S754_infinity s' | S754_finite s' _ _ => Bool.eqb s' s
  end.

(** [0 <= f] and [0 < f]. *)
Definition nonneg (f : spec_float) : bool := SFleb (S754_zero false) f.
Definition pos (f : spec_float) : bool := SFltb (S754_zero false) f.

Definition zerob (f : spec_float) : bool :=
  match f with S754_zero _ => true | _ => false end.

Definition sign_of (f : spec_float) : bool :=
  match f with
  | S754_nan => false
  | S754_zero s | S754_infinity s | S754_finite s _ _ => s
  end.

(** [SameValueZero] on the specification. *)
Definition same (x y : spec_float) : bool :=
  SFeqb x y || (nanb x && nanb y).

(** The integer that a binary64 value denotes, when it denotes one. *)
Definition integerValue (f : spec_float) : option Z :=
  match f with
  | S754_zero _ => Some 0%Z
  | S754_finite s m e =>
      let magnitude :=
        if (0 <=? e)%Z then Some (Zpos m * 2 ^ e)%Z
        else if (Zpos m mod 2 ^ (- e) =? 0)%Z then Some (Zpos m / 2 ^ (- e))%Z
        else None in
      match magnitude with
      | Some z => Some (if s then (- z)%Z else z)
      | None => None
      end
  | _ => None
  end.

End SF.

(** The rank of a health label, from the most to the least severe. *)
Definition labelRank (status : HealthStatus) : nat :=
  if String.eqb (label status) "Safe" then 3
  else if String.eqb (label status) "OK" then 2
  else if String.eqb (label status) "Tight" then 1
  else 0.

(** The rank of a portfolio band, from the most to the least severe. *)
Definition bandRank (band : HealthBand) : nat :=
  if String.eqb (guidance band) "Normal operation" then 3
  else if String.eqb (guidance band) "No new leverage, monitor closely" then 2
  else if String.eqb (guidance band) "Top up collateral or reduce debt" then 1
  else 0.


(** A reply that ends the loop over the endpoints of a market: a body
    without errors. *)
Definition cleanReply (reply : SubgraphReply) : bool :=
  match reply with
  | ReplyBody None _ => true
  | ReplyBody (Some messages) _ => Nat.eqb (List.length messages) 0
  | _ => false
  end.

(** The records a reply carries. *)
Definition repliedReserves (reply : SubgraphReply) : list Raw.RawUserReserve :=
  match reply with
  | ReplyBody _ (Some reserves) => reserves
  | _ => []
  end.

(** A record tagged with the name of its market. *)
Definition tagged (market : string) (reserve : Raw.RawUserReserve)
    : Raw.RawUserReserveWithMarket :=
  {| Raw.withoutMarket := reserve; Raw.__marketName := market |}.

(** ** Sample data *)

(** A loan as the position builder emits it, with a single collateral
    asset: [units] tokens at [price] USD with liquidation threshold
    [threshold], against [owedUnits] tokens priced [owedPrice] USD. *)
Definition singleCollateralLoan (units price threshold owedUnits owedPrice : float)
    : LoanPosition :=
  let collateral :=
    {| symbol := "WETH"; address := "0xweth"; amount := units; usdPrice := price;
       usdValue := units * price; collateralEnabled := true; maxLTV := 0.8;
       liqThreshold := threshold; supplyRate := 0.02; borrowRate := 0.03 |} in
  let owed :=
    {| symbol := "USDC"; address := "0xusdc"; amount := owedUnits; usdPrice := owedPrice;
       usdValue := owedUnits * owedPrice; collateralEnabled := false; maxLTV := 0.75;
       liqThreshold := 0.78; supplyRate := 0.03; borrowRate := 0.05 |} in
  {| id := "proto_mainnet_v3-0xusdc-0"; marketName := "proto_mainnet_v3";
     borrowed := owed;
     supplied := [collateral];
     totalSuppliedUsd := sumOf usdValue [collateral];
     totalBorrowedUsd := usdValue owed |}.

(** 2 USD of collateral with threshold 0.9 against 1 USD of debt: the health
    factor is 1.8. *)
Definition sampleLoan : LoanPosition := singleCollateralLoan 2 1 0.9 1 1.

(** A fetch result holding the given loans. *)
Definition sampleState (loans : list LoanPosition) : FetchState :=
  {| wallet := "0x0000000000000000000000000000000000000001";
     loans := loans;
     lastUpdated := "2024-01-01T00:00:00.000Z" |}.

(** A loan without collateral. *)
Definition unsecuredLoan : LoanPosition :=
  {| id := "proto_mainnet_v3-0xusdc-0"; marketName := "proto_mainnet_v3";
     borrowed := borrowed sampleLoan;
     supplied := [];
     totalSuppliedUsd := 0;
     totalBorrowedUsd := 1 |}.

(** Two collateral assets worth 1e308 USD each, in a loan whose totals are
    finite. *)
Definition oversizedLoan : LoanPosition :=
  let collateral :=
    {| symbol := "WETH"; address := "0xweth"; amount := 1; usdPrice := 1e308;
       usdValue := 1e308; collateralEnabled := true; maxLTV := 0.8;
       liqThreshold := 0.9; supplyRate := 0.02; borrowRate := 0.03 |} in
  {| id := "proto_mainnet_v3-0xusdc-0"; marketName := "proto_mainnet_v3";
     borrowed := borrowed sampleLoan;
     supplied := [collateral; collateral];
     totalSuppliedUsd := 1e308;
     totalBorrowedUsd := 1 |}.

(** A host for the sample records: [Number] on the three strings they use,
    [10 ** x] at the two exponents they use (0 decimals, and 27 for rates);
    their tickers are in upper case and their addresses in lower case, so
    that [toUpperCase] and [toLowerCase] leave them as they are. *)
Definition sampleNumber (s : string) : float :=
  if String.eqb s "5" then 5 else if String.eqb s "2" then 2 else 0.

Definition samplePow10 (x : float) : float :=
  if x =? 27 then 1e27 else 1.

Definition sampleAddress (symbol : string) : string :=
  if String.eqb symbol "WETH" then "0xc02aaa39b223fe8d0a0e5c4f27ead9083c756cc2"
  else if String.eqb symbol "USDC" then "0xa0b86991c6218b36c1d19d4a2e9eb0ce3606eb48"
  else "0x6b175474e89094c44da98b954eedeac495271d0f".

Definition sampleReserve (supply debt : string) (symbol market : string)
    : Raw.RawUserReserveWithMarket :=
  {| Raw.withoutMarket :=
       {| Raw.currentATokenBalance := supply;
          Raw.currentTotalDebt := debt;
          Raw.usageAsCollateralEnabledOnUser := true;
          Raw.reserve :=
            {| Raw.symbol := symbol; Raw.decimals := 0;
               Raw.underlyingAsset := sampleAddress symbol;
               Raw.baseLTVasCollateral := "0";
               Raw.reserveLiquidationThreshold := "0";
               Raw.liquidityRate := "0";
               Raw.variableBorrowRate := "0" |} |};
     Raw.__marketName := market |}.

Definition sampleReserves : list Raw.RawUserReserveWithMarket :=
  [ sampleReserve "5" "0" "WETH" "proto_mainnet_v3";
    sampleReserve "0" "2" "USDC" "proto_mainnet_v3" ].

Definition samplePrices : PriceMap :=
  fun symbol => if String.eqb symbol "WETH" then Some 2 else Some 1.

Definition sampleBuild (reserves : list Raw.RawUserReserveWithMarket)
    : list LoanPosition :=
  buildLoanPositions sampleNumber samplePow10 (fun s => s) (fun s => s)
    reserves samplePrices.


(** A subgraph that answers the sample records at every endpoint. *)
Definition sampleSubgraph (endpoint : string) : SubgraphReply :=
  ReplyBody None (Some (map Raw.withoutMarket sampleReserves)).

(** ** Facts about binary64 arithmetic *)

(** *** On the specification [spec_float] *)

Module SFFacts.

Import SF.

Section Rounding.
Variables prec emax : Z.

Lemma shr_1_nonneg mrs : (0 <= shr_m mrs)%Z -> (0 <= shr_m (shr_1 mrs))%Z.
Proof.
  destruct mrs as [m r s]; simpl.
  destruct m as [|p|p]; [ | destruct p | ]; simpl; lia.
Qed.

Lemma iter_shr_1_nonneg p : forall mrs,
  (0 <= shr_m mrs)%Z -> (0 <= shr_m (iter_pos shr_1 p mrs))%Z.
Proof.
  induction p as [p IH|p IH|]; intros mrs H; simpl.
  - apply IH, IH, shr_1_nonneg, H.
  - apply IH, IH, H.
  - apply shr_1_nonneg, H.
Qed.

Lemma shr_nonneg mrs e k :
  (0 <= shr_m mrs)%Z -> (0 <= shr_m (fst (shr mrs e k)))%Z.
Proof.
  intros H. destruct k; simpl; auto using iter_shr_1_nonneg.
Qed.

Lemma shr_fexp_nonneg m e l :
  (0 <= m)%Z -> (0 <= shr_m (fst (shr_fexp prec emax m e l)))%Z.
Proof.
  intros H. unfold shr_fexp. apply shr_nonneg.
  destruct l as [|[]]; simpl; exact H.
Qed.

Lemma round_nearest_even_nonneg m l :
  (0 <= m)%Z -> (0 <= round_nearest_even m l)%Z.
Proof.
  intros H. destruct l as [|[]]; simpl; try lia.
  destruct (Z.even m); lia.
Qed.

Lemma binary_round_aux_signed s m e l :
  (0 <= m)%Z -> signed s (binary_round_aux prec emax s m e l) = true.
Proof.
  intros H. unfold binary_round_aux.
  pose proof (shr_fexp_nonneg m e l H) as H1.
  destruct (shr_fexp prec emax m e l) as [mrs' e']; simpl in H1.
  pose proof (shr_fexp_nonneg _ e' loc_Exact
                (round_nearest_even_nonneg _ (loc_of_shr_record mrs') H1)) as H2.
  destruct (shr_fexp prec emax _ e' loc_Exact) as [mrs'' e'']; simpl in H2.
  destruct (shr_m mrs'') as [|q|q]; simpl.
  - apply eqb_reflx.
  - destruct (e'' <=? emax - prec)%Z; simpl; apply eqb_reflx.
  - lia.
Qed.

Lemma binary_round_signed s m e :
  signed s (binary_round prec emax s m e) = true.
Proof.
  unfold binary_round.
  destruct (shl_align m e _) as [mz ez].
  apply binary_round_aux_signed. lia.
Qed.


Lemma signed_not_nan s f : signed s f = true -> nanb f = false.
Proof. destruct f; simpl; congruence. Qed.





Lemma SFdiv_core_nonneg m1 e1 m2 e2 :
  (0 <= fst (fst (SFdiv_core_binary prec emax (Zpos m1) e1 (Zpos m2) e2)))%Z.
Proof.
  unfold SFdiv_core_binary.
  set (s := (e1 - e2 - _)%Z).
  set (m' := match s with Zpos _ => Z.shiftl (Zpos m1) s | Z0 => Zpos m1 | Zneg _ => 0%Z end).
  assert (Hm : (0 <= m')%Z).
  { unfold m'. destruct s; try lia. apply Z.shiftl_nonneg. lia. }
  pose proof (Z.div_pos m' (Zpos m2) Hm ltac:(lia)) as Hq.
  unfold Z.div in Hq.
  destruct (Z.div_eucl m' (Zpos m2)) as [q r]. exact Hq.
Qed.

Lemma SFdiv_signed x y sx sy :
  signed sx x = true -> signed sy y = true ->
  zerob y = false -> finb x || finb y = true ->
  signed (xorb sx sy) (SFdiv prec emax x y) = true.
Proof.
  destruct x as [s1|s1| |s1 m1 e1], y as [s2|s2| |s2 m2 e2];
    simpl; try congruence; intros H1 H2 _ _;
    apply eqb_prop in H1, H2; subst; try apply eqb_reflx.
  pose proof (SFdiv_core_nonneg m1 e1 m2 e2) as Hq.
  destruct (SFdiv_core_binary prec emax (Zpos m1) e1 (Zpos m2) e2) as [[mz ez] lz].
  apply binary_round_aux_signed. exact Hq.
Qed.

(** *** The order of [SFcompare] *)

Ltac order_cases :=
  repeat match goal with
         | s : bool |- _ => destruct s
         end;
  simpl in *; try congruence;
  repeat match goal with
         | H : context [(?a ?= ?b)%Z] |- _ => destruct (Z.compare_spec a b)
         | |- context [(?a ?= ?b)%Z] => destruct (Z.compare_spec a b)
         end;
  simpl in *; try congruence; try lia;
  rewrite ?Pos.compare_cont_spec in *; simpl in *;
  repeat match goal with
         | H : context [(?a ?= ?b)%positive] |- _ => destruct (Pos.compare_spec a b)
         | |- context [(?a ?= ?b)%positive] => destruct (Pos.compare_spec a b)
         end;
  simpl in *; try congruence; try lia.

Lemma SFltb_not_above m a c :
  SFltb m a = false -> SFltb m c = true -> SFltb c a = false.
Proof.
  unfold SFltb, SFcompare.
  destruct m as [s1|s1| |s1 m1 e1], a as [s2|s2| |s2 m2 e2], c as [s3|s3| |s3 m3 e3];
    order_cases.
Qed.

Lemma SFltb_not_tied m a c :
  SFltb m a = false -> SFltb m c = true -> SFeqb a c = false.
Proof.
  unfold SFltb, SFeqb, SFcompare.
  destruct m as [s1|s1| |s1 m1 e1], a as [s2|s2| |s2 m2 e2], c as [s3|s3| |s3 m3 e3];
    order_cases.
Qed.

Lemma SFltb_total x y :
  nanb x = false -> nanb y = false -> SFltb x y = false -> SFleb y x = true.
Proof.
  unfold SFltb, SFleb, SFcompare.
  destruct x as [s1|s1| |s1 m1 e1], y as [s2|s2| |s2 m2 e2]; order_cases.
Qed.

Lemma SFeqb_refl x : nanb x = false -> SFeqb x x = true.
Proof.
  unfold SFeqb, SFcompare. destruct x as [s1|s1| |s1 m1 e1]; order_cases.
Qed.

Lemma signed_sign_of f : nanb f = false -> signed (sign_of f) f = true.
Proof. destruct f; simpl; try congruence; intros _; apply eqb_reflx. Qed.

Lemma signed_false_nonneg f : signed false f = true -> nonneg f = true.
Proof. destruct f as [s|s| |s m e]; cbv; try congruence; destruct s; auto. Qed.

Lemma finb_not_nan f : finb f = true -> nanb f = false.
Proof. destruct f; simpl; congruence. Qed.

Lemma nonneg_not_nan f : nonneg f = true -> nanb f = false.
Proof. destruct f; cbv; congruence. Qed.

Lemma pos_not_nan f : pos f = true -> nanb f = false.
Proof. destruct f; cbv; congruence. Qed.

Lemma pos_not_zero f : pos f = true -> zerob f = false.
Proof. destruct f; cbv; congruence. Qed.

Lemma pos_signed f : pos f = true -> signed false f = true.
Proof. destruct f as [s|s| |s m e]; cbv; try congruence; destruct s; auto. Qed.


Lemma SFdiv_not_nan x y :
  nanb x = false -> nanb y = false -> zerob y = false ->
  finb x || finb y = true -> nanb (SFdiv prec emax x y) = false.
Proof.
  intros Hx Hy Hz Hf.
  apply (signed_not_nan (xorb (sign_of x) (sign_of y))).
  apply SFdiv_signed; auto using signed_sign_of.
Qed.

Lemma SFmul_nonneg x y :
  nonneg x = true -> nonneg y = true -> finb x = true -> finb y = true ->
  nonneg (SFmul prec emax x y) = true.
Proof.
  destruct x as [s1|s1| |s1 m1 e1], y as [s2|s2| |s2 m2 e2];
    simpl; try congruence; intros H1 H2 _ _; try reflexivity.
  destruct s1, s2; try discriminate.
  apply signed_false_nonneg.
  apply (binary_round_aux_signed false). lia.
Qed.

Lemma SFdiv_nonneg x y :
  nonneg x = true -> pos y = true -> finb x || finb y = true ->
  nonneg (SFdiv prec emax x y) = true.
Proof.
  intros Hx Hy Hf.
  destruct x as [s1|s1| |s1 m1 e1]; try discriminate.
  - destruct y; try discriminate; reflexivity.
  - apply signed_false_nonneg.
    destruct s1; try discriminate.
    apply (SFdiv_signed _ _ false false);
      auto using pos_signed, pos_not_zero.
  - apply signed_false_nonneg.
    destruct s1; try discriminate.
    apply (SFdiv_signed _ _ false false);
      auto using pos_signed, pos_not_zero.
Qed.

End Rounding.
End SFFacts.


(** *** On primitive floats *)

Lemma Prim2SF_zero : Prim2SF 0 = S754_zero false.
Proof. reflexivity. Qed.

Lemma Prim2SF_infinity : Prim2SF infinity = S754_infinity false.
Proof. reflexivity. Qed.

Lemma is_nan_Prim2SF x : is_nan x = SF.nanb (Prim2SF x).
Proof.
  unfold is_nan. rewrite eqb_spec.
  destruct (Prim2SF x) as [s|s| |s m e] eqn:E; simpl; auto.
  - destruct s; reflexivity.
  - rewrite (SFFacts.SFeqb_refl (S754_finite s m e)); reflexivity.
Qed.

Lemma is_infinity_Prim2SF x :
  is_infinity x = match Prim2SF x with S754_infinity _ => true | _ => false end.
Proof.
  unfold is_infinity. rewrite eqb_spec, abs_spec, Prim2SF_infinity.
  destruct (Prim2SF x) as [s|s| |s m e]; reflexivity.
Qed.

Lemma is_finite_Prim2SF x : is_finite x = SF.finb (Prim2SF x).
Proof.
  unfold is_finite. rewrite is_nan_Prim2SF, is_infinity_Prim2SF.
  destruct (Prim2SF x); reflexivity.
Qed.

Lemma gt0_Prim2SF x : (x >? 0) = SF.pos (Prim2SF x).
Proof. unfold Js.gt. now rewrite ltb_spec, Prim2SF_zero. Qed.

Lemma le0_Prim2SF x : (0 <=? x) = SF.nonneg (Prim2SF x).
Proof. now rewrite leb_spec, Prim2SF_zero. Qed.

Lemma finite_not_nan x : is_finite x = true -> is_nan x = false.
Proof. rewrite is_finite_Prim2SF, is_nan_Prim2SF. apply SFFacts.finb_not_nan. Qed.

Lemma gt0_not_nan x : (x >? 0) = true -> is_nan x = false.
Proof. rewrite gt0_Prim2SF, is_nan_Prim2SF. apply SFFacts.pos_not_nan. Qed.

Lemma le0_not_nan x : (0 <=? x) = true -> is_nan x = false.
Proof. rewrite le0_Prim2SF, is_nan_Prim2SF. apply SFFacts.nonneg_not_nan. Qed.




Lemma div_not_nan x y :
  is_nan x = false -> (y >? 0) = true -> is_finite x || is_finite y = true ->
  is_nan (x / y) = false.
Proof.
  rewrite !is_nan_Prim2SF, !is_finite_Prim2SF, gt0_Prim2SF, div_spec.
  intros Hx Hy Hf.
  apply SFFacts.SFdiv_not_nan; auto using SFFacts.pos_not_nan, SFFacts.pos_not_zero.
Qed.

Lemma mul_nonneg x y :
  (0 <=? x) = true -> (0 <=? y) = true ->
  is_finite x = true -> is_finite y = true -> (0 <=? x * y) = true.
Proof.
  rewrite !le0_Prim2SF, !is_finite_Prim2SF, mul_spec. apply SFFacts.SFmul_nonneg.
Qed.

Lemma div_nonneg x y :
  (0 <=? x) = true -> (y >? 0) = true -> is_finite x || is_finite y = true ->
  (0 <=? x / y) = true.
Proof.
  rewrite !le0_Prim2SF, !is_finite_Prim2SF, gt0_Prim2SF, div_spec.
  apply SFFacts.SFdiv_nonneg.
Qed.

(** *** Comparisons *)

Lemma gt_irrefl x : (x >? x) = false.
Proof.
  unfold Js.gt. rewrite ltb_spec.
  destruct (SFltb (Prim2SF x) (Prim2SF x)) eqn:E; auto.
  pose proof (SFFacts.SFltb_not_above (Prim2SF x) (Prim2SF x) (Prim2SF x)) as H.
  destruct (is_nan x) eqn:N.
  - rewrite is_nan_Prim2SF in N. destruct (Prim2SF x); discriminate.
  - rewrite is_nan_Prim2SF in N.
    pose proof (SFFacts.SFeqb_refl _ N) as R.
    unfold SFltb, SFeqb in *. destruct (SFcompare (Prim2SF x) (Prim2SF x)) as [[]|]; congruence.
Qed.

Lemma gt_not_above a m c :
  (a >? m) = false -> (c >? m) = true -> (a >? c) = false.
Proof. unfold Js.gt. rewrite !ltb_spec. apply SFFacts.SFltb_not_above. Qed.

Lemma gt_not_tied a m c :
  (a >? m) = false -> (c >? m) = true -> (a =? c) = false.
Proof. unfold Js.gt. rewrite !ltb_spec, eqb_spec. apply SFFacts.SFltb_not_tied. Qed.

Lemma gt_false_le x y :
  is_nan x = false -> is_nan y = false -> (y >? x) = false -> (y <=? x) = true.
Proof.
  unfold Js.gt. rewrite !is_nan_Prim2SF, ltb_spec, leb_spec. apply SFFacts.SFltb_total.
Qed.

(** *** Zeros and exact quotients *)

Lemma eqb0_Prim2SF x : (x =? 0) = SF.zerob (Prim2SF x).
Proof.
  rewrite eqb_spec, Prim2SF_zero.
  destruct (Prim2SF x) as [s|s| |s m e]; try reflexivity; destruct s; reflexivity.
Qed.

Lemma eqb0_not_gt0 x : (x =? 0) = true -> (x >? 0) = false.
Proof.
  rewrite eqb0_Prim2SF, gt0_Prim2SF. destruct (Prim2SF x); cbv; congruence.
Qed.

Lemma eqb0_le0 x : (x =? 0) = true -> (x <=? 0) = true.
Proof.
  rewrite eqb0_Prim2SF, leb_spec, Prim2SF_zero. destruct (Prim2SF x); cbv; congruence.
Qed.

Lemma zero_times_zero_over_positive c d :
  (c =? 0) = true -> (d >? 0) = true -> (c * 0 / d =? 0) = true.
Proof.
  rewrite !eqb0_Prim2SF, gt0_Prim2SF, div_spec, mul_spec, Prim2SF_zero.
  destruct (Prim2SF c) as [s| | |]; try discriminate. intros _.
  destruct (Prim2SF d) as [s'|s'| |s' m e]; cbv; try congruence; destruct s'; congruence.
Qed.

Lemma zero_times_finite d r :
  (d =? 0) = true -> is_finite r = true -> (d * r =? 0) = true.
Proof.
  rewrite !eqb0_Prim2SF, is_finite_Prim2SF, mul_spec.
  destruct (Prim2SF d) as [s| | |]; try discriminate. intros _.
  destruct (Prim2SF r); cbv; congruence.
Qed.

Lemma minus_zero c d :
  (d =? 0) = true -> (c - d >? 0) = true -> c - d = c.
Proof.
  rewrite eqb0_Prim2SF, gt0_Prim2SF. intros Hd Hpos.
  apply Prim2SF_inj. rewrite sub_spec in *.
  destruct (Prim2SF d) as [s| | |]; try discriminate.
  destruct (Prim2SF c) as [s'|s'| |s' m e]; try reflexivity.
  destruct s, s'; discriminate.
Qed.


Lemma div_eucl_shiftl m :
  Z.div_eucl (Z.shiftl (Zpos m) 53) (Zpos m) = (Z.shiftl 1 53, 0%Z).
Proof.
  pose proof (Z.div_eucl_eq (Z.shiftl (Zpos m) 53) (Zpos m) ltac:(lia)) as E.
  pose proof (Z.mod_pos_bound (Z.shiftl (Zpos m) 53) (Zpos m) ltac:(lia)) as B.
  unfold Z.modulo in B.
  destruct (Z.div_eucl (Z.shiftl (Zpos m) 53) (Zpos m)) as [q r].
  rewrite !Z.shiftl_mul_pow2 in * by lia.
  assert (q = 2 ^ 53)%Z by nia.
  f_equal; lia.
Qed.

Lemma SFdiv_self s m e :
  SF64div (S754_finite s m e) (S754_finite s m e) = Prim2SF 1.
Proof.
  unfold SF64div, SFdiv, SFdiv_core_binary.
  replace (Zdigits2 (Zpos m) + e - (Zdigits2 (Zpos m) + e))%Z with 0%Z by lia.
  replace (e - e)%Z with 0%Z by lia.
  change (Z.min (fexp prec emax 0) 0)%Z with (-53)%Z.
  change (0 - -53)%Z with 53%Z.
  cbv beta iota zeta. rewrite div_eucl_shiftl.
  replace (new_location (Zpos m) 0) with loc_Exact
    by (unfold new_location; destruct (Z.even (Zpos m)); reflexivity).
  destruct s; reflexivity.
Qed.

Lemma div_self c : is_finite c = true -> (c >? 0) = true -> c / c = 1.
Proof.
  rewrite is_finite_Prim2SF, gt0_Prim2SF. intros Hf Hp.
  apply Prim2SF_inj. rewrite div_spec.
  destruct (Prim2SF c) as [s|s| |s m e]; try discriminate.
  apply SFdiv_self.
Qed.

(** *** The choice of the primary collateral *)

Lemma fold_larger rest : forall seen acc i,
  nth_error seen i = Some acc ->
  (forall a, In a seen -> (usdValue a >? usdValue acc) = false) ->
  (forall j a, (j < i)%nat -> nth_error seen j = Some a ->
               (usdValue a =? usdValue acc) = false) ->
  exists i',
    nth_error (seen ++ rest) i' = Some (fold_left larger rest acc)
    /\ (forall a, In a (seen ++ rest) ->
                  (usdValue a >? usdValue (fold_left larger rest acc)) = false)
    /\ (forall j a, (j < i')%nat -> nth_error (seen ++ rest) j = Some a ->
                    (usdValue a =? usdValue (fold_left larger rest acc)) = false).
Proof.
  induction rest as [|x rest IH]; intros seen acc i Hi Hmax Htie.
  - exists i. rewrite app_nil_r. auto.
  - simpl fold_left.
    replace (seen ++ x :: rest) with ((seen ++ [x]) ++ rest)
      by (rewrite <- app_assoc; reflexivity).
    unfold larger at 2 4 6.
    destruct (usdValue x >? usdValue acc) eqn:E.
    + apply (IH (seen ++ [x]) x (List.length seen)).
      * rewrite nth_error_app2, Nat.sub_diag by lia. reflexivity.
      * intros a Ha. apply in_app_or in Ha. destruct Ha as [Ha|[<-|[]]].
        -- eapply gt_not_above; eauto.
        -- apply gt_irrefl.
      * intros j a Hj Ha. rewrite nth_error_app1 in Ha by lia.
        apply nth_error_In in Ha. eapply gt_not_tied; eauto.
    + apply (IH (seen ++ [x]) acc i).
      * rewrite nth_error_app1; auto. apply nth_error_Some. congruence.
      * intros a Ha. apply in_app_or in Ha. destruct Ha as [Ha|[<-|[]]]; auto.
      * intros j a Hj Ha.
        assert (i < List.length seen)%nat by (apply nth_error_Some; congruence).
        rewrite nth_error_app1 in Ha by lia. eauto.
Qed.

(** *** Metrics of finite loans *)





(** *** Sums and signs *)

Lemma SFadd_nonneg x y :
  SF.nonneg x = true -> SF.nonneg y = true -> SF.nonneg (SF64add x y) = true.
Proof.
  intros Hx Hy.
  destruct x as [s1|s1| |s1 m1 e1]; try discriminate;
    try (destruct s1; try discriminate);
    (destruct y as [s2|s2| |s2 m2 e2]; try discriminate;
     try (destruct s2; try discriminate); try reflexivity).
  unfold SF64add, SFadd.
  apply SFFacts.signed_false_nonneg. cbn [cond_Zopp Z.add].
  apply SFFacts.binary_round_signed.
Qed.

Lemma add_nonneg x y :
  (0 <=? x) = true -> (0 <=? y) = true -> (0 <=? x + y) = true.
Proof. rewrite !le0_Prim2SF, add_spec. apply SFadd_nonneg. Qed.

Lemma sumOf_nonneg {A : Type} (f : A -> float) (items : list A) :
  (forall a, In a items -> (0 <=? f a) = true) -> (0 <=? sumOf f items) = true.
Proof.
  unfold sumOf, sumOver.
  assert (H : forall acc, (0 <=? acc) = true ->
            (forall a, In a items -> (0 <=? f a) = true) ->
            (0 <=? fold_left (fun sum item => sum + f item) items acc) = true).
  { induction items as [|x items IH]; simpl; intros acc Hacc Hf; [exact Hacc|].
    apply IH; auto. apply add_nonneg; auto. }
  apply H. reflexivity.
Qed.

Lemma gt0_not_le0 x : (x >? 0) = true -> (x <=? 0) = false.
Proof.
  rewrite gt0_Prim2SF, leb_spec, Prim2SF_zero.
  destruct (Prim2SF x) as [s|s| |s m e]; cbv; try congruence; destruct s; congruence.
Qed.

Lemma not_le0_not_zero x : (x <=? 0) = false -> (x =? 0) = false.
Proof.
  rewrite eqb0_Prim2SF, leb_spec, Prim2SF_zero.
  destruct (Prim2SF x); cbv; congruence.
Qed.

(** *** Equality up to the sign of zero *)

Lemma SFsame_refl x : SF.same x x = true.
Proof.
  unfold SF.same. destruct (SF.nanb x) eqn:E.
  - apply orb_true_r.
  - now rewrite SFFacts.SFeqb_refl.
Qed.

Lemma SFadd_zero_same r : SF.same (SF64add (S754_zero false) r) r = true.
Proof.
  destruct r as [s|s| |s m e]; try apply SFsame_refl.
  destruct s; reflexivity.
Qed.

Lemma SF_single_loan_sums c d :
  SF.same (SF64add (S754_zero false) (SF64sub c d))
         (SF64sub (SF64add (S754_zero false) c) (SF64add (S754_zero false) d)) = true.
Proof.
  destruct c as [s1|s1| |s1 m1 e1], d as [s2|s2| |s2 m2 e2];
    try (destruct s1, s2; reflexivity); try (destruct s1; reflexivity);
    try (destruct s2; reflexivity); try reflexivity;
    try apply SFadd_zero_same; try apply SFsame_refl;
    try (destruct s1; apply SFsame_refl); try (destruct s2; apply SFsame_refl).
Qed.

Lemma sameValueZero_Prim2SF x y :
  Js.sameValueZero x y = SF.same (Prim2SF x) (Prim2SF y).
Proof. unfold Js.sameValueZero, SF.same. now rewrite eqb_spec, !is_nan_Prim2SF. Qed.

Lemma single_loan_sums c d :
  Js.sameValueZero (0 + (c - d)) (0 + c - (0 + d)) = true.
Proof.
  rewrite sameValueZero_Prim2SF, !add_spec, !sub_spec, !add_spec, Prim2SF_zero.
  apply SF_single_loan_sums.
Qed.

Lemma sumOf_map {A B : Type} (f : B -> float) (g : A -> B) (items : list A) :
  sumOf f (map g items) = sumOf (fun item => f (g item)) items.
Proof.
  unfold sumOf, sumOver.
  generalize 0. induction items as [|x items IH]; simpl; intros acc; auto.
Qed.

(** *** The folds in exact arithmetic *)

Section ExactFolds.

Context {A : Type}.

Lemma fold_Qplus_Qeq (f : A -> Q) items : forall a b : Q,
  (a == b)%Q ->
  (fold_left (fun sum item => sum + f item) items a
   == fold_left (fun sum item => sum + f item) items b)%Q.
Proof.
  induction items as [|x items IH]; simpl; intros a b E; [exact E|].
  apply IH. now rewrite E.
Qed.

Lemma fold_Qplus_shift (f : A -> Q) items : forall a : Q,
  (fold_left (fun sum item => sum + f item) items a
   == a + fold_left (fun sum item => sum + f item) items 0)%Q.
Proof.
  induction items as [|x items IH]; simpl; intros a; [ring|].
  rewrite (IH (a + f x)%Q), (IH (0 + f x)%Q). ring.
Qed.

Lemma sumOfQ_cons (f : A -> Q) x items :
  (sumOfQ f (x :: items) == f x + sumOfQ f items)%Q.
Proof.
  unfold sumOfQ, sumOver. simpl. rewrite fold_Qplus_shift. ring.
Qed.

Lemma sumOfQ_minus (c d : A -> Q) items :
  (sumOfQ (fun x => c x - d x) items == sumOfQ c items - sumOfQ d items)%Q.
Proof.
  induction items as [|x items IH].
  - unfold sumOfQ, sumOver. simpl. ring.
  - rewrite !sumOfQ_cons, IH. ring.
Qed.

Lemma weighted_sum_bounds (weight sel : A -> Q) (lo hi : Q) items :
  (forall a, In a items -> (0 <= weight a)%Q /\ (lo <= sel a <= hi)%Q) ->
  (lo * sumOfQ weight items <= sumOfQ (fun a => sel a * weight a) items
   /\ sumOfQ (fun a => sel a * weight a) items <= hi * sumOfQ weight items)%Q.
Proof.
  induction items as [|x items IH]; intros H.
  - unfold sumOfQ, sumOver. simpl. split; lra.
  - rewrite !sumOfQ_cons.
    destruct IH as [IH1 IH2]; [intros a Ha; apply H; now right|].
    destruct (H x (or_introl eq_refl)) as (Hw & Hlo & Hhi).
    split; nra.
Qed.

Lemma weightedAverageQ_bounds (weight sel : A -> Q) (lo hi : Q) items :
  (forall a, In a items -> (0 <= weight a)%Q /\ (lo <= sel a <= hi)%Q) ->
  (0 < sumOfQ weight items)%Q ->
  (lo <= weightedAverageQ weight items sel <= hi)%Q.
Proof.
  intros H Hpos.
  destruct (weighted_sum_bounds weight sel lo hi items H) as [H1 H2].
  unfold weightedAverageQ, weightedAverageOver.
  fold (sumOfQ weight items). fold (sumOfQ (fun a => sel a * weight a)%Q items).
  destruct (Qle_bool (sumOfQ weight items) 0) eqn:E.
  - apply Qle_bool_iff in E. lra.
  - split.
    + apply Qle_shift_div_l; assumption.
    + apply Qle_shift_div_r; assumption.
Qed.

End ExactFolds.

(** *** Lists *)


Lemma in_mapi_from {A B : Type} (f : A -> nat -> B) (items : list A) : forall start y,
  In y (mapi_from f start items) ->
  exists x index, nth_error items index = Some x /\ y = f x (start + index)%nat.
Proof.
  induction items as [|x items IH]; simpl; intros start y; [tauto|].
  intros [<-|Hin].
  - exists x, 0%nat. rewrite Nat.add_0_r. auto.
  - destruct (IH _ _ Hin) as (x' & i & Hi & ->).
    exists x', (S i). rewrite Nat.add_succ_r. auto.
Qed.


Lemma filter_nil {A : Type} (f : A -> bool) (items : list A) :
  (forall x, In x items -> f x = false) -> filter f items = [].
Proof.
  induction items as [|x items IH]; simpl; intros H; [reflexivity|].
  rewrite (H x), IH; auto.
Qed.

(** *** Grouping by market *)

Lemma map_get_In m key group : map_get m key = Some group -> In (key, group) m.
Proof.
  induction m as [|[k v] m IH]; simpl; [discriminate|].
  destruct (String.eqb_spec k key) as [->|Hk].
  - intros [= ->]. now left.
  - intros H. right. auto.
Qed.

Lemma map_get_None m key : map_get m key = None -> ~ In key (map fst m).
Proof.
  induction m as [|[k v] m IH]; simpl; [tauto|].
  destruct (String.eqb_spec k key) as [->|Hk]; [discriminate|].
  intros H [E|Hin]; [congruence|]. now apply IH.
Qed.

Lemma map_set_keys m key value :
  (In key (map fst m) /\ map fst (map_set m key value) = map fst m)
  \/ (~ In key (map fst m) /\ map fst (map_set m key value) = map fst m ++ [key]).
Proof.
  induction m as [|[k v] m IH]; simpl.
  - right. split; [tauto|reflexivity].
  - destruct (String.eqb_spec k key) as [->|Hk]; simpl.
    + left. split; [now left|reflexivity].
    + destruct IH as [[Hin E]|[Hin E]]; rewrite E.
      * left. split; [now right|reflexivity].
      * right. split; [|reflexivity]. intros [?|?]; congruence.
Qed.

Lemma map_set_NoDup m key value :
  NoDup (map fst m) -> NoDup (map fst (map_set m key value)).
Proof.
  intros H. destruct (map_set_keys m key value) as [[_ E]|[Hin E]]; rewrite E; auto.
  apply NoDup_app; auto.
  - constructor; [tauto|constructor].
  - intros k Hk [<-|[]]. tauto.
Qed.

Lemma map_set_In m key value k v :
  NoDup (map fst m) -> In (k, v) (map_set m key value) ->
  (k = key /\ v = value) \/ (k <> key /\ In (k, v) m).
Proof.
  induction m as [|[k0 v0] m IH]; simpl; intros Hnd.
  - intros [[= <- <-]|[]]. now left.
  - inversion Hnd as [|? ? Hk0 Hnd']; subst.
    destruct (String.eqb_spec k0 key) as [->|Hk]; simpl.
    + intros [[= <- <-]|Hin]; [now left|].
      right. split; [|now right].
      intros ->. apply Hk0. change key with (fst (key, v)). now apply in_map.
    + intros [[= <- <-]|Hin]; [right; split; auto|].
      destruct (IH Hnd' Hin) as [?|[? ?]]; [now left|right; auto].
Qed.

Lemma recordsOfMarket_snoc reserves reserve market :
  recordsOfMarket (reserves ++ [reserve]) market =
  if String.eqb (Raw.__marketName reserve) market
  then recordsOfMarket reserves market ++ [reserve]
  else recordsOfMarket reserves market.
Proof.
  unfold recordsOfMarket. rewrite filter_app. simpl.
  destruct (String.eqb _ market); [reflexivity|apply app_nil_r].
Qed.

Lemma recordsOfMarket_absent reserves market :
  (forall reserve, In reserve reserves -> Raw.__marketName reserve <> market) ->
  recordsOfMarket reserves market = [].
Proof.
  induction reserves as [|r rs IH]; simpl; intros H; [reflexivity|].
  destruct (String.eqb_spec (Raw.__marketName r) market) as [E|_].
  - exfalso. apply (H r); auto.
  - apply IH. intros; apply H; auto.
Qed.

Lemma grouped_step reserves m reserve :
  grouped reserves m ->
  grouped (reserves ++ [reserve])
    (map_set m (Raw.__marketName reserve)
       (match map_get m (Raw.__marketName reserve) with
        | Some g => g
        | None => []
        end ++ [reserve])).
Proof.
  intros (Hnd & Hgroups & Hfiled).
  set (key := Raw.__marketName reserve).
  assert (Hgroup : match map_get m key with Some g => g | None => [] end
                   = recordsOfMarket reserves key).
  { destruct (map_get m key) as [g|] eqn:E.
    - apply Hgroups, map_get_In, E.
    - symmetry. apply recordsOfMarket_absent.
      intros r Hr Hk. apply (map_get_None _ _ E). rewrite <- Hk. auto. }
  rewrite Hgroup.
  split; [|split].
  - apply map_set_NoDup, Hnd.
  - intros k g Hin.
    rewrite recordsOfMarket_snoc. fold key.
    destruct (map_set_In _ _ _ _ _ Hnd Hin) as [(-> & ->)|(Hk & Hin')].
    + now rewrite String.eqb_refl.
    + destruct (String.eqb_spec key k); [congruence|auto].
  - intros r Hr.
    assert (Hkeys : forall k, In k (map fst m) \/ k = key ->
                              In k (map fst (map_set m key (recordsOfMarket reserves key ++ [reserve])))).
    { intros k Hk.
      destruct (map_set_keys m key (recordsOfMarket reserves key ++ [reserve]))
        as [[Hin E]|[Hin E]]; rewrite E.
      - destruct Hk as [? | ->]; auto.
      - apply in_or_app. destruct Hk as [? | ->]; [auto|right; now left]. }
    apply Hkeys. apply in_app_or in Hr. destruct Hr as [Hr|[<-|[]]]; auto.
Qed.

Lemma groupByMarket_grouped reserves :
  grouped reserves (groupByMarket reserves).
Proof.
  unfold groupByMarket.
  assert (H : forall rest done m, grouped done m ->
            grouped (done ++ rest)
              (fold_left
                 (fun loansByMarket reserve =>
                    let group :=
                      match map_get loansByMarket (Raw.__marketName reserve) with
                      | Some g => g
                      | None => []
                      end in
                    map_set loansByMarket (Raw.__marketName reserve) (group ++ [reserve]))
                 rest m)).
  { induction rest as [|r rest IH]; intros done m Hg; simpl.
    - now rewrite app_nil_r.
    - replace (done ++ r :: rest) with ((done ++ [r]) ++ rest)
        by (rewrite <- app_assoc; reflexivity).
      apply IH, grouped_step, Hg. }
  apply (H reserves [] []).
  split; [constructor|split]; intros; simpl in *; tauto.
Qed.

Section PositionBuilderFacts.

Variable Number : string -> float.
Variable pow10 : float -> float.
Variable toUpperCase toLowerCase : string -> string.

Lemma in_loansOfMarket prices market marketReserves loan :
  In loan (loansOfMarket Number pow10 toUpperCase toLowerCase prices (market, marketReserves)) ->
  marketName loan = market
  /\ In (borrowed loan) (borrowedAssetsOf Number pow10 toUpperCase toLowerCase marketReserves prices)
  /\ supplied loan =
       filter collateralEnabled
         (suppliedAssetsOf Number pow10 toUpperCase toLowerCase marketReserves prices)
  /\ totalBorrowedUsd loan = usdValue (borrowed loan)
  /\ totalSuppliedUsd loan = sumOf usdValue (supplied loan).
Proof.
  unfold loansOfMarket, mapi. intros Hin.
  apply in_mapi_from in Hin. destruct Hin as (b & i & Hi & ->). simpl.
  repeat split. eapply nth_error_In, Hi.
Qed.


End PositionBuilderFacts.

(** *** More on the order of binary64 numbers *)

Module SFOrder.

Import SF.

Ltac cases :=
  repeat match goal with
         | s : bool |- _ => destruct s
         end;
  simpl in *; try congruence;
  repeat match goal with
         | H : context [(?a ?= ?b)%Z] |- _ => destruct (Z.compare_spec a b)
         | |- context [(?a ?= ?b)%Z] => destruct (Z.compare_spec a b)
         end;
  simpl in *; try congruence; try lia;
  rewrite ?Pos.compare_cont_spec in *; simpl in *;
  repeat match goal with
         | H : context [(?a ?= ?b)%positive] |- _ => destruct (Pos.compare_spec a b)
         | |- context [(?a ?= ?b)%positive] => destruct (Pos.compare_spec a b)
         end;
  simpl in *; try congruence; try lia.

Lemma SFleb_ltb_trans x y z :
  SFleb x y = true -> SFltb y z = true -> SFltb x z = true.
Proof.
  unfold SFltb, SFleb, SFcompare.
  destruct x as [s1|s1| |s1 m1 e1], y as [s2|s2| |s2 m2 e2], z as [s3|s3| |s3 m3 e3];
    cases.
Qed.

Lemma SFltb_leb_trans x y z :
  SFltb x y = true -> SFleb y z = true -> SFltb x z = true.
Proof.
  unfold SFltb, SFleb, SFcompare.
  destruct x as [s1|s1| |s1 m1 e1], y as [s2|s2| |s2 m2 e2], z as [s3|s3| |s3 m3 e3];
    cases.
Qed.

Lemma SFleb_trans x y z :
  SFleb x y = true -> SFleb y z = true -> SFleb x z = true.
Proof.
  unfold SFleb, SFcompare.
  destruct x as [s1|s1| |s1 m1 e1], y as [s2|s2| |s2 m2 e2], z as [s3|s3| |s3 m3 e3];
    cases.
Qed.

Lemma SFltb_leb x y : SFltb x y = true -> SFleb x y = true.
Proof.
  unfold SFltb, SFleb. destruct (SFcompare x y) as [[]|]; congruence.
Qed.

Lemma SFltb_not_leb x y : SFltb x y = true -> SFleb y x = false.
Proof.
  unfold SFltb, SFleb, SFcompare.
  destruct x as [s1|s1| |s1 m1 e1], y as [s2|s2| |s2 m2 e2]; cases.
Qed.

Lemma SFleb_refl x : nanb x = false -> SFleb x x = true.
Proof.
  intros H. pose proof (SFFacts.SFeqb_refl x H) as E.
  unfold SFeqb, SFleb in *. destruct (SFcompare x x) as [[]|]; congruence.
Qed.

Lemma SFleb_not_nan x y : SFleb x y = true -> nanb x = false /\ nanb y = false.
Proof.
  unfold SFleb, SFcompare. destruct x, y; simpl; try congruence; auto.
Qed.

Lemma SFleb_antisym x y : SFleb x y = true -> SFleb y x = true -> SFeqb x y = true.
Proof.
  unfold SFleb, SFeqb, SFcompare.
  destruct x as [s1|s1| |s1 m1 e1], y as [s2|s2| |s2 m2 e2]; cases.
Qed.

Lemma SFbetween_finite lo x hi :
  finb lo = true -> finb hi = true ->
  SFleb lo x = true -> SFleb x hi = true -> finb x = true.
Proof.
  unfold SFleb, SFcompare.
  destruct lo as [s1|s1| |s1 m1 e1], x as [s2|s2| |s2 m2 e2], hi as [s3|s3| |s3 m3 e3];
    simpl; try congruence; destruct s2; congruence.
Qed.

End SFOrder.

Lemma leb_ltb_trans x y z : (x <=? y) = true -> (y <? z) = true -> (x <? z) = true.
Proof. rewrite !leb_spec, !ltb_spec. apply SFOrder.SFleb_ltb_trans. Qed.

Lemma ltb_leb_trans x y z : (x <? y) = true -> (y <=? z) = true -> (x <? z) = true.
Proof. rewrite !leb_spec, !ltb_spec. apply SFOrder.SFltb_leb_trans. Qed.

Lemma leb_trans x y z : (x <=? y) = true -> (y <=? z) = true -> (x <=? z) = true.
Proof. rewrite !leb_spec. apply SFOrder.SFleb_trans. Qed.

Lemma ltb_leb x y : (x <? y) = true -> (x <=? y) = true.
Proof. rewrite leb_spec, ltb_spec. apply SFOrder.SFltb_leb. Qed.

Lemma ltb_not_leb x y : (x <? y) = true -> (y <=? x) = false.
Proof. rewrite leb_spec, ltb_spec. apply SFOrder.SFltb_not_leb. Qed.

Lemma leb_refl x : is_nan x = false -> (x <=? x) = true.
Proof. rewrite is_nan_Prim2SF, leb_spec. apply SFOrder.SFleb_refl. Qed.

Lemma leb_not_nan x y : (x <=? y) = true -> is_nan x = false /\ is_nan y = false.
Proof. rewrite !is_nan_Prim2SF, leb_spec. apply SFOrder.SFleb_not_nan. Qed.

Lemma not_ltb_leb x y :
  is_nan x = false -> is_nan y = false -> (x <? y) = false -> (y <=? x) = true.
Proof. rewrite !is_nan_Prim2SF, ltb_spec, leb_spec. apply SFFacts.SFltb_total. Qed.

Lemma between_finite lo x hi :
  is_finite lo = true -> is_finite hi = true ->
  (lo <=? x) = true -> (x <=? hi) = true -> is_finite x = true.
Proof. rewrite !is_finite_Prim2SF, !leb_spec. apply SFOrder.SFbetween_finite. Qed.

(** *** [Math.max], [Math.min] and [clamp] *)

Lemma is_nan_nan : is_nan nan = true.
Proof. reflexivity. Qed.

Lemma Math_max_cases a b :
  is_nan a = false -> is_nan b = false ->
  (Js.Math_max a b = a \/ Js.Math_max a b = b)
  /\ (a <=? Js.Math_max a b) = true /\ (b <=? Js.Math_max a b) = true.
Proof.
  intros Ha Hb. unfold Js.Math_max. rewrite Ha, Hb. simpl.
  destruct (a <? b) eqn:Eab.
  - split; [now right|]. split; [now apply ltb_leb|now apply leb_refl].
  - destruct (b <? a) eqn:Eba.
    + split; [now left|]. split; [now apply leb_refl|now apply ltb_leb].
    + pose proof (not_ltb_leb _ _ Ha Hb Eab). pose proof (not_ltb_leb _ _ Hb Ha Eba).
      destruct (get_sign a).
      * split; [now right|]. split; [assumption|now apply leb_refl].
      * split; [now left|]. split; [now apply leb_refl|assumption].
Qed.

Lemma Math_min_cases a b :
  is_nan a = false -> is_nan b = false ->
  (Js.Math_min a b = a \/ Js.Math_min a b = b)
  /\ (Js.Math_min a b <=? a) = true /\ (Js.Math_min a b <=? b) = true.
Proof.
  intros Ha Hb. unfold Js.Math_min. rewrite Ha, Hb. simpl.
  destruct (a <? b) eqn:Eab.
  - split; [now left|]. split; [now apply leb_refl|now apply ltb_leb].
  - destruct (b <? a) eqn:Eba.
    + split; [now right|]. split; [now apply ltb_leb|now apply leb_refl].
    + pose proof (not_ltb_leb _ _ Ha Hb Eab). pose proof (not_ltb_leb _ _ Hb Ha Eba).
      destruct (get_sign a).
      * split; [now left|]. split; [now apply leb_refl|assumption].
      * split; [now right|]. split; [assumption|now apply leb_refl].
Qed.

Lemma Math_max_not_nan a b :
  is_nan a = false -> is_nan b = false -> is_nan (Js.Math_max a b) = false.
Proof.
  intros Ha Hb. destruct (Math_max_cases a b Ha Hb) as ([->| ->] & _); assumption.
Qed.

Lemma ltb_asym x y : (x <? y) = true -> (y <? x) = false.
Proof.
  intros H. destruct (y <? x) eqn:E; [|reflexivity].
  apply ltb_leb in E. now rewrite (ltb_not_leb _ _ H) in E.
Qed.

Lemma ltb_not_nan x y : (x <? y) = true -> is_nan x = false /\ is_nan y = false.
Proof. intros H. apply leb_not_nan. now apply ltb_leb. Qed.

Lemma leb_antisym x y : (x <=? y) = true -> (y <=? x) = true -> (x =? y) = true.
Proof. rewrite !leb_spec, eqb_spec. apply SFOrder.SFleb_antisym. Qed.

Section Converters.

Variable Number : string -> float.
Variable pow10 : float -> float.

Lemma clamp_in_bounds value min max :
  is_nan value = false -> (min <=? max) = true ->
  (min <=? clamp value min max) = true /\ (clamp value min max <=? max) = true.
Proof.
  intros Hv Hmm. destruct (leb_not_nan _ _ Hmm) as [Hmin Hmax].
  unfold clamp.
  destruct (Math_max_cases min value Hmin Hv) as (Hr1 & Hlo & _).
  pose proof (Math_max_not_nan min value Hmin Hv) as Hn1.
  destruct (Math_min_cases max (Js.Math_max min value) Hmax Hn1) as (Hr & Hhi & _).
  split; [|exact Hhi].
  destruct Hr as [-> | ->]; assumption.
Qed.

Lemma n_is_finite value : is_finite (n Number value) = true.
Proof.
  unfold n, Js.isFinite.
  destruct (is_finite match value with inl s => _ | inr v => v end) eqn:E;
    [exact E|reflexivity].
Qed.

Lemma parseBalance_is_finite raw decimals :
  is_finite (parseBalance Number pow10 raw decimals) = true.
Proof.
  unfold parseBalance, Js.isFinite.
  destruct (is_finite (Number raw / pow10 decimals)) eqn:E; [exact E|reflexivity].
Qed.

Lemma fromBps_in_range raw :
  (0 <=? fromBps Number raw) = true /\ (fromBps Number raw <=? 0.99) = true.
Proof.
  unfold fromBps. apply clamp_in_bounds; [|reflexivity].
  apply div_not_nan; [apply finite_not_nan, n_is_finite|reflexivity|].
  now rewrite n_is_finite.
Qed.

Lemma removeCommas_app a b :
  Js.removeCommas (a ++ b) = (Js.removeCommas a ++ Js.removeCommas b)%string.
Proof.
  induction a as [|c a IH]; simpl; [reflexivity|].
  destruct (Ascii.eqb c ","); simpl; now rewrite IH.
Qed.

Lemma clamp_keeps_value value min max :
  (min <=? value) = true -> (value <=? max) = true ->
  (clamp value min max =? value) = true.
Proof.
  intros Hlo Hhi.
  destruct (leb_not_nan _ _ Hlo) as [Hmin Hv].
  destruct (leb_not_nan _ _ Hhi) as [_ Hmax].
  unfold clamp.
  destruct (Math_max_cases min value Hmin Hv) as (Hr1 & _ & Hv1).
  pose proof (Math_max_not_nan min value Hmin Hv) as Hn1.
  destruct (Math_min_cases max (Js.Math_max min value) Hmax Hn1) as (Hr & _ & Hle1).
  assert (H1v : (Js.Math_max min value <=? value) = true).
  { destruct Hr1 as [-> | ->]; [assumption|now apply leb_refl]. }
  apply leb_antisym.
  - eapply leb_trans; eassumption.
  - destruct Hr as [-> | ->]; assumption.
Qed.

End Converters.

(** *** Assets built from records *)

Lemma finite_times_zero a : is_finite a = true -> (a * 0 =? 0) = true.
Proof.
  rewrite is_finite_Prim2SF, eqb0_Prim2SF, mul_spec, Prim2SF_zero.
  destruct (Prim2SF a); cbv; congruence.
Qed.

Lemma length_filter_map {A B : Type} (q : B -> bool) (h : A -> B) (items : list A) :
  List.length (filter q (map h items)) = List.length (filter (fun x => q (h x)) items).
Proof.
  induction items as [|x items IH]; simpl; [reflexivity|].
  destruct (q (h x)); simpl; now rewrite IH.
Qed.

Lemma length_mapi_from {A B : Type} (f : A -> nat -> B) (items : list A) : forall start,
  List.length (mapi_from f start items) = List.length items.
Proof. induction items as [|x items IH]; simpl; intros start; [|rewrite IH]; reflexivity. Qed.

Lemma length_flat_map_sum {A B : Type} (f : A -> list B) (items : list A) :
  List.length (flat_map f items) = list_sum (map (fun x => List.length (f x)) items).
Proof.
  induction items as [|x items IH]; simpl; [reflexivity|].
  now rewrite length_app, IH.
Qed.

Lemma sum_cons (x : nat) (l : list nat) : list_sum (x :: l) = (x + list_sum l)%nat.
Proof. reflexivity. Qed.

Lemma occurrences_NoDup (key : string) (keys : list string) :
  NoDup keys -> In key keys ->
  list_sum (map (fun k => if String.eqb key k then 1 else 0)%nat keys) = 1%nat.
Proof.
  induction keys as [|k keys IH]; simpl; intros Hnd Hin; [tauto|].
  inversion Hnd as [|? ? Hk Hnd']; subst.
  destruct (String.eqb_spec key k) as [->|Hne].
  - assert (H : forall l, ~ In k l ->
              list_sum (map (fun k0 => if String.eqb k k0 then 1 else 0)%nat l) = 0%nat).
    { induction l as [|x l IHl]; simpl; intros Hx; [reflexivity|].
      destruct (String.eqb_spec k x) as [->|_]; [tauto|]. apply IHl. tauto. }
    now rewrite H.
  - destruct Hin as [->|Hin]; [congruence|]. now apply IH.
Qed.

Lemma count_by_market (P : Raw.RawUserReserveWithMarket -> bool) (keys : list string) :
  NoDup keys -> forall reserves,
  (forall reserve, In reserve reserves -> In (Raw.__marketName reserve) keys) ->
  list_sum (map (fun key => List.length (filter P (recordsOfMarket reserves key))) keys)
  = List.length (filter P reserves).
Proof.
  intros Hnd. induction reserves as [|r rs IH]; intros Hin.
  - simpl. clear. induction keys as [|k keys IHk]; simpl; auto.
  - assert (Hstep : forall l,
      list_sum (map (fun key => List.length (filter P (recordsOfMarket (r :: rs) key))) l)
      = (list_sum (map (fun k => if String.eqb (Raw.__marketName r) k
                                 then if P r then 1 else 0 else 0)%nat l)
         + list_sum (map (fun key => List.length (filter P (recordsOfMarket rs key))) l))%nat).
    { induction l as [|k l IHl]; [reflexivity|].
      rewrite !map_cons, !sum_cons, IHl.
      unfold recordsOfMarket at 1. cbn [filter].
      destruct (String.eqb (Raw.__marketName r) k); cbn [filter];
        [destruct (P r); cbn [List.length]|]; fold (recordsOfMarket rs k); lia. }
    rewrite Hstep, IH by (intros; apply Hin; now right).
    simpl. destruct (P r).
    + rewrite (occurrences_NoDup _ _ Hnd (Hin r (or_introl eq_refl))). reflexivity.
    + replace (list_sum _) with 0%nat; [reflexivity|].
      clear. induction keys as [|k keys IHk]; simpl; [reflexivity|].
      destruct (String.eqb _ k); simpl; exact IHk.
Qed.

Section BuiltAssets.

Variable Number : string -> float.
Variable pow10 : float -> float.
Variable toUpperCase toLowerCase : string -> string.

Lemma toAssetPosition_fields raw balance prices :
  let asset := toAssetPosition Number pow10 toUpperCase toLowerCase raw balance prices in
  amount asset = balance
  /\ symbol asset = toUpperCase (Raw.symbol (Raw.reserve raw))
  /\ usdValue asset = amount asset * usdPrice asset
  /\ collateralEnabled asset = Raw.usageAsCollateralEnabledOnUser raw
  /\ (0 <=? maxLTV asset) = true /\ (maxLTV asset <=? 0.99) = true
  /\ (0 <=? liqThreshold asset) = true /\ (liqThreshold asset <=? 0.99) = true
  /\ (prices (symbol asset) = None -> usdPrice asset = 0).
Proof.
  cbn [toAssetPosition amount symbol usdValue usdPrice collateralEnabled maxLTV
       liqThreshold].
  repeat split; try apply fromBps_in_range.
  intros ->. reflexivity.
Qed.

Lemma in_assetsOf (balanceOf : Raw.RawUserReserveWithMarket -> string)
    marketReserves prices asset :
  In asset
    (filter (fun entry => amount entry >? 0)
       (map (fun entry : Raw.RawUserReserveWithMarket =>
               toAssetPosition Number pow10 toUpperCase toLowerCase entry
                 (parseBalance Number pow10 (balanceOf entry)
                    (Raw.decimals (Raw.reserve entry)))
                 prices)
            marketReserves)) ->
  exists entry,
    In entry marketReserves
    /\ asset = toAssetPosition Number pow10 toUpperCase toLowerCase entry
                 (parseBalance Number pow10 (balanceOf entry)
                    (Raw.decimals (Raw.reserve entry)))
                 prices
    /\ (amount asset >? 0) = true.
Proof.
  intros H. apply filter_In in H. destruct H as [H Hpos].
  apply in_map_iff in H. destruct H as (entry & <- & Hin).
  exists entry. auto.
Qed.

End BuiltAssets.

(** *** Health labels and bands *)

(** A reading is valid when it is finite and positive. *)
Lemma invalid_test hf :
  negb (Js.isFinite hf) || (hf <=? 0) = false ->
  is_finite hf = true /\ (hf <=? 0) = false /\ is_nan hf = false.
Proof.
  unfold Js.isFinite. intros H. apply orb_false_elim in H. destruct H as [H1 H2].
  apply negb_false_iff in H1. auto using finite_not_nan.
Qed.

Lemma valid_above hf1 hf2 :
  (hf1 <=? 0) = false -> (hf1 <=? hf2) = true -> (hf2 <=? 0) = false.
Proof.
  intros H1 H12. destruct (hf2 <=? 0) eqn:E; [|reflexivity].
  now rewrite (leb_trans _ _ _ H12 E) in H1.
Qed.

Lemma below_threshold hf1 hf2 t :
  (hf1 <=? hf2) = true -> (hf1 <? t) = false -> (hf2 <? t) = false.
Proof.
  intros H12 H1. destruct (hf2 <? t) eqn:E; [|reflexivity].
  now rewrite (leb_ltb_trans _ _ _ H12 E) in H1.
Qed.

Lemma healthLabel_cases hf :
  (negb (Js.isFinite hf) || (hf <=? 0) = true /\ label (healthLabel hf) = "Invalid"%string
   /\ tone (healthLabel hf) = BadgeTone.danger)
  \/ (negb (Js.isFinite hf) || (hf <=? 0) = false
      /\ ((hf <? 1.1) = true /\ label (healthLabel hf) = "Danger"%string
          /\ tone (healthLabel hf) = BadgeTone.danger
          \/ (hf <? 1.1) = false /\ (hf <? 1.5) = true
             /\ label (healthLabel hf) = "Tight"%string
             /\ tone (healthLabel hf) = BadgeTone.warning
          \/ (hf <? 1.1) = false /\ (hf <? 1.5) = false /\ (hf <? 2) = true
             /\ label (healthLabel hf) = "OK"%string
             /\ tone (healthLabel hf) = BadgeTone.neutral
          \/ (hf <? 1.1) = false /\ (hf <? 1.5) = false /\ (hf <? 2) = false
             /\ label (healthLabel hf) = "Safe"%string
             /\ tone (healthLabel hf) = BadgeTone.positive)).
Proof.
  unfold healthLabel.
  destruct (negb (Js.isFinite hf) || (hf <=? 0)); [left; auto|right; split; [reflexivity|]].
  destruct (hf <? 1.1); [left; auto|right].
  destruct (hf <? 1.5); [left; auto|right].
  destruct (hf <? 2); [left; auto|right; auto].
Qed.

Lemma band_cases hf :
  (negb (Js.isFinite hf) || (hf <=? 0) = true
   /\ guidance (portfolioHealthFactorBand hf) = "Invalid reading"%string)
  \/ (negb (Js.isFinite hf) || (hf <=? 0) = false
      /\ ((hf <? 1.5) = true
          /\ guidance (portfolioHealthFactorBand hf) = "Mandatory deleveraging"%string
          \/ (hf <? 1.5) = false /\ (hf <? 1.8) = true
             /\ guidance (portfolioHealthFactorBand hf)
                = "Top up collateral or reduce debt"%string
          \/ (hf <? 1.5) = false /\ (hf <? 1.8) = false /\ (hf <=? 2.2) = true
             /\ guidance (portfolioHealthFactorBand hf)
                = "No new leverage, monitor closely"%string
          \/ (hf <? 1.5) = false /\ (hf <? 1.8) = false /\ (hf <=? 2.2) = false
             /\ guidance (portfolioHealthFactorBand hf) = "Normal operation"%string)).
Proof.
  unfold portfolioHealthFactorBand.
  destruct (negb (Js.isFinite hf) || (hf <=? 0)); [left; auto|right; split; [reflexivity|]].
  destruct (hf <? 1.5); [left; auto|right].
  destruct (hf <? 1.8); [left; auto|right].
  destruct (hf <=? 2.2); [left; auto|right; auto].
Qed.

(** The thresholds are ordered. *)
Lemma below_lower_threshold hf (lower upper : float) :
  (lower <=? upper) = true -> (hf <? lower) = true -> (hf <? upper) = true.
Proof. intros Hlu H. eapply ltb_leb_trans; eassumption. Qed.

Lemma not_below_lower_threshold hf (lower upper : float) :
  (lower <=? upper) = true -> (hf <? upper) = false -> (hf <? lower) = false.
Proof.
  intros Hlu H. destruct (hf <? lower) eqn:E; [|reflexivity].
  now rewrite (below_lower_threshold _ _ _ Hlu E) in H.
Qed.

(** *** Portfolios and selection *)

Lemma no_finite_health_factor (metrics : list Computed) :
  (forall m, In m metrics -> Js.isFinite (healthFactor m) = false) ->
  Portfolio.averageHealthFactor (portfolioOfMetrics metrics) = infinity.
Proof.
  intros H. cbn [portfolioOfMetrics Portfolio.averageHealthFactor].
  replace (filter Js.isFinite (map healthFactor metrics)) with (@nil float);
    [reflexivity|].
  symmetry. apply filter_nil. intros x Hx.
  apply in_map_iff in Hx. destruct Hx as (m & <- & Hm). auto.
Qed.

Lemma find_id_some loans wanted loan :
  find (fun candidate => String.eqb (id candidate) wanted) loans = Some loan ->
  In loan loans /\ id loan = wanted.
Proof.
  intros H. apply find_some in H. destruct H as [Hin E].
  split; [exact Hin|now apply String.eqb_eq].
Qed.

Lemma existsb_find_id loans wanted :
  existsb (fun candidate => String.eqb (id candidate) wanted) loans = true ->
  exists loan, find (fun candidate => String.eqb (id candidate) wanted) loans = Some loan.
Proof.
  induction loans as [|l loans IH]; simpl; [discriminate|].
  destruct (String.eqb (id l) wanted); simpl; eauto.
Qed.

Lemma loan_has_record Number pow10 toUpperCase toLowerCase reserves prices loan :
  In loan (buildLoanPositions Number pow10 toUpperCase toLowerCase reserves prices) ->
  exists entry : Raw.RawUserReserveWithMarket,
    In entry reserves
    /\ Raw.__marketName entry = marketName loan
    /\ borrowed loan
       = toAssetPosition Number pow10 toUpperCase toLowerCase entry
           (parseBalance Number pow10 (Raw.currentTotalDebt entry)
              (Raw.decimals (Raw.reserve entry)))
           prices
    /\ totalBorrowedUsd loan = usdValue (borrowed loan).
Proof.
  intros Hloan.
  unfold buildLoanPositions in Hloan. apply in_flat_map in Hloan.
  destruct Hloan as ([market marketReserves] & Hgroup & Hin).
  apply in_loansOfMarket in Hin. destruct Hin as (Hm & Hb & _ & Hd & _).
  unfold borrowedAssetsOf in Hb.
  destruct (in_assetsOf _ _ _ _ (fun e => Raw.currentTotalDebt e) _ _ _ Hb)
    as (entry & Hentry & E & _).
  destruct (groupByMarket_grouped reserves) as (_ & Hgroups & _).
  rewrite (Hgroups _ _ Hgroup) in Hentry.
  apply filter_In in Hentry. destruct Hentry as [Hentry Hname].
  apply String.eqb_eq in Hname.
  exists entry. rewrite Hm. auto.
Qed.

Lemma unpriced_debt_is_zero Number pow10 toUpperCase toLowerCase reserves prices loan :
  In loan (buildLoanPositions Number pow10 toUpperCase toLowerCase reserves prices) ->
  prices (symbol (borrowed loan)) = None ->
  (totalBorrowedUsd loan =? 0) = true.
Proof.
  intros Hloan Hprice.
  destruct (loan_has_record _ _ _ _ _ _ _ Hloan) as (entry & _ & _ & E & Hd).
  destruct (toAssetPosition_fields Number pow10 toUpperCase toLowerCase entry
              (parseBalance Number pow10 (Raw.currentTotalDebt entry)
                 (Raw.decimals (Raw.reserve entry))) prices)
    as (Ha & _ & Hv & _ & _ & _ & _ & _ & Hp).
  rewrite <- E in Ha, Hv, Hp.
  rewrite Hd, Hv, (Hp Hprice), Ha. apply finite_times_zero, parseBalance_is_finite.
Qed.

(** *** Fetching *)

Lemma flat_map_filter {A B} (keep : A -> bool) (f : A -> list B) (l : list A) :
  flat_map f (filter keep l) = flat_map (fun x => if keep x then f x else []) l.
Proof.
  induction l as [|x l IH]; simpl; [reflexivity|].
  destruct (keep x); simpl; now rewrite IH.
Qed.

Lemma find_none_iff {A} (p : A -> bool) (l : list A) :
  find p l = None <-> forall x, In x l -> p x = false.
Proof.
  split; [intros H x; now apply find_none|].
  induction l as [|x l IH]; simpl; intros H; [reflexivity|].
  rewrite (H x (or_introl eq_refl)). apply IH. auto.
Qed.

Section SubgraphFetchFacts.

Variable GRAPH_API_KEY : option string.
Variable fetch : string -> SubgraphReply.
Variable toLowerCase : string -> string.

Lemma tryEndpoints_marketName market endpoints failures saw :
  MarketResult.marketName
    (tryEndpoints fetch toLowerCase market endpoints failures saw)
  = Market.marketName market.
Proof.
  revert failures saw.
  induction endpoints as [|e es IH]; intros failures saw; simpl; [reflexivity|].
  destruct (fetch e) as [| status | [messages|] reserves]; auto.
  destruct (negb (Nat.eqb (List.length messages) 0)); auto.
Qed.

Lemma tryEndpoints_clean market endpoints failures saw endpoint :
  find (fun e => cleanReply (fetch e)) endpoints = Some endpoint ->
  tryEndpoints fetch toLowerCase market endpoints failures saw
  = {| MarketResult.marketName := Market.marketName market;
       MarketResult.reserves := repliedReserves (fetch endpoint);
       MarketResult.failures := [];
       MarketResult.sawHostedServiceRemoval := false |}.
Proof.
  revert failures saw.
  induction endpoints as [|e es IH]; intros failures saw; simpl; [discriminate|].
  unfold cleanReply at 1.
  destruct (fetch e) as [| status | [messages|] reserves] eqn:E; auto.
  - destruct (Nat.eqb (List.length messages) 0); simpl; auto.
    intros [= <-]. rewrite E. reflexivity.
  - intros [= <-]. rewrite E. reflexivity.
Qed.

Lemma tryEndpoints_failed market endpoints failures saw :
  find (fun e => cleanReply (fetch e)) endpoints = None ->
  let r := tryEndpoints fetch toLowerCase market endpoints failures saw in
  MarketResult.reserves r = []
  /\ List.length (MarketResult.failures r)
     = (List.length failures + List.length endpoints)%nat.
Proof.
  revert failures saw.
  induction endpoints as [|e es IH]; intros failures saw; cbn [tryEndpoints find].
  - intros _. split; [reflexivity|simpl; lia].
  - unfold cleanReply at 1.
    destruct (fetch e) as [| status | [messages|] reserves] eqn:E;
      try destruct (Nat.eqb (List.length messages) 0);
      cbn [negb]; try discriminate; intros H; cbv zeta;
      match goal with
      | |- context [tryEndpoints _ _ _ _ ?f ?s] => destruct (IH f s H) as [H1 H2]
      end;
      (split; [exact H1|]); rewrite H2, length_app; simpl; lia.
Qed.

Lemma fetchMarket_marketName market :
  MarketResult.marketName (fetchMarket GRAPH_API_KEY fetch toLowerCase market)
  = Market.marketName market.
Proof.
  unfold fetchMarket.
  destruct (Nat.eqb _ 0); [reflexivity|apply tryEndpoints_marketName].
Qed.

Lemma fetchMarket_clean market endpoint :
  find (fun e => cleanReply (fetch e)) (endpointsOf GRAPH_API_KEY market) = Some endpoint ->
  fetchMarket GRAPH_API_KEY fetch toLowerCase market
  = {| MarketResult.marketName := Market.marketName market;
       MarketResult.reserves := repliedReserves (fetch endpoint);
       MarketResult.failures := [];
       MarketResult.sawHostedServiceRemoval := false |}.
Proof.
  intros H. unfold fetchMarket.
  destruct (endpointsOf GRAPH_API_KEY market) as [|e es] eqn:E; [discriminate|].
  cbn [List.length Nat.eqb]. now apply tryEndpoints_clean.
Qed.

Lemma fetchMarket_failed market :
  find (fun e => cleanReply (fetch e)) (endpointsOf GRAPH_API_KEY market) = None ->
  let r := fetchMarket GRAPH_API_KEY fetch toLowerCase market in
  MarketResult.reserves r = []
  /\ List.length (MarketResult.failures r)
     = Nat.max 1 (List.length (endpointsOf GRAPH_API_KEY market)).
Proof.
  intros H. unfold fetchMarket.
  destruct (endpointsOf GRAPH_API_KEY market) as [|e es] eqn:E.
  - split; reflexivity.
  - cbn [List.length Nat.eqb].
    destruct (tryEndpoints_failed market (e :: es) [] false H) as [H1 H2].
    split; [exact H1|]. rewrite H2. simpl. lia.
Qed.

(** What one market contributes to a successful fetch. *)
Lemma contribution market :
  (let result := fetchMarket GRAPH_API_KEY fetch toLowerCase market in
   if Nat.eqb (List.length (MarketResult.failures result)) 0
   then map (fun reserve =>
               {| Raw.withoutMarket := reserve;
                  Raw.__marketName := MarketResult.marketName result |})
            (MarketResult.reserves result)
   else [])
  = match find (fun e => cleanReply (fetch e)) (endpointsOf GRAPH_API_KEY market) with
    | Some endpoint =>
        map (tagged (Market.marketName market)) (repliedReserves (fetch endpoint))
    | None => []
    end.
Proof.
  cbv zeta.
  destruct (find _ (endpointsOf GRAPH_API_KEY market)) as [endpoint|] eqn:E.
  - rewrite (fetchMarket_clean _ _ E). reflexivity.
  - destruct (fetchMarket_failed _ E) as [_ H2]. cbv zeta in H2. revert H2.
    destruct (MarketResult.failures _); [cbn [List.length]; lia|reflexivity].
Qed.

Lemma succeeded_iff market :
  Nat.eqb (List.length (MarketResult.failures
                          (fetchMarket GRAPH_API_KEY fetch toLowerCase market))) 0
  = match find (fun e => cleanReply (fetch e)) (endpointsOf GRAPH_API_KEY market) with
    | Some _ => true
    | None => false
    end.
Proof.
  destruct (find _ (endpointsOf GRAPH_API_KEY market)) as [endpoint|] eqn:E.
  - rewrite (fetchMarket_clean _ _ E). reflexivity.
  - destruct (fetchMarket_failed _ E) as [_ H2]. cbv zeta in H2. revert H2.
    destruct (MarketResult.failures _); [cbn [List.length]; lia|reflexivity].
Qed.

Lemma collect_success (markets : list Market.t) records :
  collectMarketResults GRAPH_API_KEY
    (map (fetchMarket GRAPH_API_KEY fetch toLowerCase) markets) = inl records ->
  records =
  flat_map (fun market =>
              match find (fun e => cleanReply (fetch e))
                         (endpointsOf GRAPH_API_KEY market) with
              | Some endpoint =>
                  map (tagged (Market.marketName market))
                      (repliedReserves (fetch endpoint))
              | None => []
              end) markets.
Proof.
  unfold collectMarketResults.
  destruct (Nat.ltb 0 _);
    [|destruct (negb _ && _); discriminate].
  intros [= <-]. rewrite flat_map_filter.
  induction markets as [|m ms IH]; [reflexivity|].
  cbn [map flat_map]. rewrite IH. f_equal. apply contribution.
Qed.

Lemma collect_succeeds_iff (markets : list Market.t) :
  (exists records,
      collectMarketResults GRAPH_API_KEY
        (map (fetchMarket GRAPH_API_KEY fetch toLowerCase) markets) = inl records)
  <-> exists market endpoint,
      In market markets /\ In endpoint (endpointsOf GRAPH_API_KEY market)
      /\ cleanReply (fetch endpoint) = true.
Proof.
  unfold collectMarketResults.
  set (ok := fun result : MarketResult.t =>
               Nat.eqb (List.length (MarketResult.failures result)) 0).
  set (results := map (fetchMarket GRAPH_API_KEY fetch toLowerCase) markets).
  split.
  - intros [records H].
    destruct (filter ok results) as [|r rs] eqn:E.
    + cbn [List.length Nat.ltb Nat.leb] in H.
      destruct (negb _ && _); discriminate.
    + assert (Hr : In r (filter ok results)) by (rewrite E; now left).
      apply filter_In in Hr. destruct Hr as [Hin Hok].
      apply in_map_iff in Hin. destruct Hin as (market & <- & Hm).
      unfold ok in Hok. rewrite succeeded_iff in Hok.
      destruct (find _ (endpointsOf GRAPH_API_KEY market)) as [endpoint|] eqn:Ef;
        [|discriminate].
      apply find_some in Ef. exists market, endpoint. tauto.
  - intros (market & endpoint & Hm & He & Hc).
    assert (Hin : In (fetchMarket GRAPH_API_KEY fetch toLowerCase market)
                     (filter ok results)).
    { apply filter_In. split; [now apply in_map|].
      unfold ok. rewrite succeeded_iff.
      destruct (find _ (endpointsOf GRAPH_API_KEY market)) eqn:Ef; [reflexivity|].
      rewrite (find_none _ _ Ef endpoint He) in Hc. discriminate. }
    destruct (filter ok results); [destruct Hin|].
    cbn [List.length Nat.ltb Nat.leb]. eauto.
Qed.

End SubgraphFetchFacts.

(** *** Prices *)

Lemma coingeckoId_In table key id :
  coingeckoId table key = Some id -> In (key, id) table.
Proof.
  induction table as [|[s i] rest IH]; simpl; [discriminate|].
  destruct (String.eqb_spec s key) as [->|_].
  - intros [= ->]. now left.
  - intros H. right. auto.
Qed.

Lemma coingeckoId_None table key :
  coingeckoId table key = None <-> ~ In key (map fst table).
Proof.
  induction table as [|[s i] rest IH]; simpl; [tauto|].
  destruct (String.eqb_spec s key) as [->|Hne].
  - split; [discriminate|]. intros H. exfalso. apply H. now left.
  - rewrite IH. tauto.
Qed.

Lemma distinct_nil items : distinct items = [] -> items = [].
Proof. destruct items; [reflexivity|discriminate]. Qed.

Section PriceFacts.

Variable toUpperCase : string -> string.
Variable usdOf : string -> option float.

Lemma recorded_from_table table prices name usd :
  fold_left (recordPrice toUpperCase usdOf) table prices name = Some usd ->
  prices name = Some usd
  \/ exists symbol id,
      In (symbol, id) table /\ toUpperCase symbol = name /\ usdOf id = Some usd.
Proof.
  revert prices. induction table as [|[s i] rest IH]; intros prices; cbn [fold_left recordPrice map fst In]; [auto|].
  intros H. apply IH in H. destruct H as [H|(symbol & id & Hin & Hk & Hu)].
  - destruct (usdOf i) as [v|] eqn:E; [|auto].
    unfold priceSet in H. destruct (String.eqb_spec name (toUpperCase s)) as [->|_]; [|auto].
    right. exists s, i. injection H as <-. auto.
  - right. exists symbol, id. auto.
Qed.

Lemma recorded_untouched table prices name :
  ~ In name (map (fun entry => toUpperCase (fst entry)) table) ->
  fold_left (recordPrice toUpperCase usdOf) table prices name = prices name.
Proof.
  revert prices. induction table as [|[s i] rest IH]; intros prices; cbn [fold_left recordPrice map fst In]; [reflexivity|].
  intros H. rewrite IH by tauto.
  destruct (usdOf i); [|reflexivity].
  unfold priceSet. destruct (String.eqb_spec name (toUpperCase s)) as [->|_]; [|reflexivity].
  exfalso. apply H. now left.
Qed.

Lemma recorded_entry table prices symbol id :
  NoDup (map (fun entry => toUpperCase (fst entry)) table) ->
  In (symbol, id) table ->
  fold_left (recordPrice toUpperCase usdOf) table prices (toUpperCase symbol)
  = match usdOf id with Some usd => Some usd | None => prices (toUpperCase symbol) end.
Proof.
  revert prices. induction table as [|[s i] rest IH]; intros prices; cbn [fold_left recordPrice map fst In]; [tauto|].
  intros Hnd [[= -> ->]|Hin]; inversion Hnd as [|? ? Hnotin Hnd']; subst.
  - rewrite recorded_untouched by exact Hnotin.
    destruct (usdOf id); [|reflexivity].
    unfold priceSet. now rewrite String.eqb_refl.
  - rewrite (IH _ Hnd' Hin).
    destruct (usdOf id); [reflexivity|].
    destruct (usdOf i); [|reflexivity].
    unfold priceSet. destruct (String.eqb_spec (toUpperCase symbol) (toUpperCase s)) as [E|_];
      [|reflexivity].
    exfalso. apply Hnotin. rewrite <- E.
    apply (in_map (fun entry => toUpperCase (fst entry)) rest (symbol, id) Hin).
Qed.

End PriceFacts.

Lemma fetchUsdPrices_from_table toUpperCase fetch symbols name usd :
  fetchUsdPrices toUpperCase fetch symbols name = Some usd ->
  (exists symbol id,
      In (symbol, id) COINGECKO_IDS_BY_SYMBOL /\ toUpperCase symbol = name)
  /\ (exists asked,
         In asked symbols
         /\ In (toUpperCase asked) (map fst COINGECKO_IDS_BY_SYMBOL)).
Proof.
  unfold fetchUsdPrices.
  destruct (Nat.eqb _ 0) eqn:El; [discriminate|].
  intros H. split.
  - destruct (fetch _) as [| | usdOf]; try discriminate.
    apply recorded_from_table in H. destruct H as [H|(symbol & id & Hin & Hk & _)];
      [discriminate|]. eauto.
  - destruct (flat_map _ symbols) as [|i l] eqn:Ef; [discriminate|].
    assert (Hi : In i (flat_map
                         (fun symbol =>
                            match coingeckoId COINGECKO_IDS_BY_SYMBOL (toUpperCase symbol) with
                            | Some id => if String.eqb id "" then [] else [id]
                            | None => []
                            end) symbols)) by (rewrite Ef; now left).
    apply in_flat_map in Hi. destruct Hi as (asked & Hasked & Hi).
    exists asked. split; [exact Hasked|].
    destruct (coingeckoId _ (toUpperCase asked)) as [id|] eqn:Ec; [|destruct Hi].
    apply coingeckoId_In in Ec.
    apply (in_map fst _ _ Ec).
Qed.

Lemma table_keys_NoDup : NoDup (map fst COINGECKO_IDS_BY_SYMBOL).
Proof.
  unfold COINGECKO_IDS_BY_SYMBOL. cbn [map fst].
  repeat (constructor; [cbn [In]; intuition discriminate|]). constructor.
Qed.

Lemma table_ids_not_empty key id :
  coingeckoId COINGECKO_IDS_BY_SYMBOL key = Some id -> String.eqb id "" = false.
Proof.
  intros H. apply coingeckoId_In in H.
  unfold COINGECKO_IDS_BY_SYMBOL in H. cbn [In] in H.
  repeat (destruct H as [[= <- <-]|H]; [reflexivity|]). destruct H.
Qed.

(** *** The count of a list as a number *)

Lemma iter_xO_pow2 p n : Zpos (Pos.iter xO p n) = (Zpos p * 2 ^ Zpos n)%Z.
Proof.
  revert p. induction n using Pos.peano_ind; intros p.
  - simpl. lia.
  - rewrite Pos.iter_succ, Pos2Z.inj_succ, Z.pow_succ_r by lia.
    rewrite Pos2Z.inj_xO, IHn. lia.
Qed.

Lemma digits2_iter_xO p n :
  digits2_pos (Pos.iter xO p n) = (digits2_pos p + n)%positive.
Proof.
  revert p. induction n using Pos.peano_ind; intros p.
  - simpl. lia.
  - rewrite Pos.iter_succ. simpl. rewrite IHn. lia.
Qed.

Lemma digits2_pos_bound p : (Zpos p < 2 ^ Zpos (digits2_pos p))%Z.
Proof.
  induction p as [p IH|p IH|]; simpl digits2_pos.
  - rewrite Pos2Z.inj_succ, Z.pow_succ_r by lia. lia.
  - rewrite Pos2Z.inj_succ, Z.pow_succ_r by lia. lia.
  - simpl. lia.
Qed.

Lemma digits2_pos_small p : (Zpos p < 2 ^ 53)%Z -> (Zpos (digits2_pos p) <= 53)%Z.
Proof.
  intros H.
  assert (L : forall q, (2 ^ (Zpos (digits2_pos q) - 1) <= Zpos q)%Z).
  { induction q as [q IH|q IH|]; simpl digits2_pos.
    - rewrite Pos2Z.inj_succ.
      replace (Z.succ (Zpos (digits2_pos q)) - 1)%Z
        with (Z.succ (Zpos (digits2_pos q) - 1))%Z by lia.
      rewrite Z.pow_succ_r by lia. lia.
    - rewrite Pos2Z.inj_succ.
      replace (Z.succ (Zpos (digits2_pos q)) - 1)%Z
        with (Z.succ (Zpos (digits2_pos q) - 1))%Z by lia.
      rewrite Z.pow_succ_r by lia. lia.
    - simpl. lia. }
  specialize (L p).
  destruct (Z_le_gt_dec (Zpos (digits2_pos p)) 53) as [Hle|Hgt]; [exact Hle|].
  exfalso.
  assert (2 ^ 53 <= 2 ^ (Zpos (digits2_pos p) - 1))%Z by (apply Z.pow_le_mono_r; lia).
  lia.
Qed.

(** The nearest binary64 value to a positive integer below 2^53 is that
    integer, with its mantissa shifted to 53 digits. *)
Lemma binary_normalize_small p :
  (Zpos p < 2 ^ 53)%Z ->
  exists m e,
    binary_normalize prec emax (Zpos p) 0 false = S754_finite false m e
    /\ (Zpos m = Zpos p * 2 ^ (- e))%Z /\ (-52 <= e <= 0)%Z
    /\ valid_binary (S754_finite false m e) = true.
Proof.
  intros Hp. pose proof (digits2_pos_small p Hp) as Hd.
  unfold binary_normalize, binary_round.
  set (d := digits2_pos p) in *.
  assert (Hfexp : fexp prec emax (Zpos d + 0) = (Zpos d - 53)%Z).
  { unfold fexp, emin, prec, emax. lia. }
  rewrite Hfexp. unfold shl_align.
  destruct (Zpos d - 53 - 0)%Z as [|q|q] eqn:Eq; try lia.
  - (* already 53 digits *)
    exists p, 0%Z.
    assert (E : binary_round_aux prec emax false (Zpos p) 0 loc_Exact
                = S754_finite false p 0).
    { unfold binary_round_aux, shr_fexp. cbn [Zdigits2]. fold d.
      replace (fexp prec emax (Zpos d + 0) - 0)%Z with 0%Z
        by (unfold fexp, emin, prec, emax; lia).
      cbn [shr shr_record_of_loc loc_of_shr_record shr_m round_nearest_even Zdigits2].
      fold d.
      replace (fexp prec emax (Zpos d + 0) - 0)%Z with 0%Z
        by (unfold fexp, emin, prec, emax; lia).
      reflexivity. }
    rewrite E. split; [reflexivity|]. split; [simpl; lia|]. split; [lia|].
    unfold valid_binary, bounded, canonical_mantissa. fold d.
    rewrite Hfexp. apply andb_true_intro. split; [apply Z.eqb_eq; lia|reflexivity].
  - exists (Pos.iter xO p q), (Zpos d - 53)%Z.
    assert (Hdig : Zpos (digits2_pos (Pos.iter xO p q)) = 53%Z).
    { rewrite digits2_iter_xO. fold d. lia. }
    assert (Hf : (fexp prec emax (53 + (Zpos d - 53)) - (Zpos d - 53) = 0)%Z).
    { unfold fexp, emin, prec, emax. lia. }
    assert (E : binary_round_aux prec emax false (Zpos (Pos.iter xO p q))
                  (Zpos d - 53) loc_Exact
                = S754_finite false (Pos.iter xO p q) (Zpos d - 53)).
    { unfold binary_round_aux, shr_fexp. cbn [Zdigits2]. rewrite Hdig, Hf.
      cbn [shr shr_record_of_loc loc_of_shr_record shr_m round_nearest_even Zdigits2].
      rewrite Hdig, Hf. cbn [shr shr_m].
      replace (Zpos d - 53 <=? emax - prec)%Z with true
        by (symmetry; apply Z.leb_le; unfold emax, prec; lia).
      reflexivity. }
    rewrite E. split; [reflexivity|].
    split; [rewrite iter_xO_pow2; f_equal; f_equal; lia|].
    split; [lia|].
    unfold valid_binary, bounded, canonical_mantissa. rewrite Hdig.
    apply andb_true_intro. split.
    + apply Z.eqb_eq. unfold fexp, emin, prec, emax. lia.
    + apply Z.leb_le. unfold emax, prec. lia.
Qed.

Lemma of_nat_integerValue (k : nat) :
  (Z.of_nat k < 2 ^ 53)%Z ->
  SF.integerValue (Prim2SF (Js.of_nat k)) = Some (Z.of_nat k).
Proof.
  intros Hk. unfold Js.of_nat.
  destruct (Z.of_nat k) as [|p|p] eqn:E; try lia.
  - reflexivity.
  - destruct (binary_normalize_small p Hk) as (m & e & -> & Hm & He & Hvalid).
    rewrite (Prim2SF_SF2Prim _ Hvalid).
    unfold SF.integerValue.
    destruct (0 <=? e)%Z eqn:E0.
    + apply Z.leb_le in E0. assert (e = 0)%Z by lia. subst e.
      simpl in Hm. f_equal. simpl. lia.
    + rewrite Hm.
      assert (Hpos : (0 < 2 ^ (- e))%Z) by (apply Z.pow_pos_nonneg; lia).
      rewrite Z.mod_mul by lia. rewrite Z.eqb_refl.
      rewrite Z.div_mul by lia. reflexivity.
Qed.

(** *** The loans of one market *)

Lemma filter_flat_map {A B : Type} (keep : B -> bool) (f : A -> list B) (items : list A) :
  filter keep (flat_map f items) = flat_map (fun x => filter keep (f x)) items.
Proof.
  induction items as [|x items IH]; simpl; [reflexivity|].
  now rewrite filter_app, IH.
Qed.

Lemma map_flat_map {A B C : Type} (g : B -> C) (f : A -> list B) (items : list A) :
  map g (flat_map f items) = flat_map (fun x => map g (f x)) items.
Proof.
  induction items as [|x items IH]; simpl; [reflexivity|].
  now rewrite map_app, IH.
Qed.

Lemma flat_map_map {A B C : Type} (f : B -> list C) (g : A -> B) (items : list A) :
  flat_map f (map g items) = flat_map (fun x => f (g x)) items.
Proof.
  induction items as [|x items IH]; simpl; [reflexivity|].
  now rewrite IH.
Qed.

Lemma flat_map_agree {A B : Type} (f g : A -> list B) (items : list A) :
  (forall x, In x items -> f x = g x) -> flat_map f items = flat_map g items.
Proof.
  induction items as [|x items IH]; simpl; intros H; [reflexivity|].
  rewrite (H x), IH; auto.
Qed.

Lemma filter_all {A : Type} (keep : A -> bool) (items : list A) :
  (forall x, In x items -> keep x = true) -> filter keep items = items.
Proof.
  induction items as [|x items IH]; simpl; intros H; [reflexivity|].
  rewrite (H x), IH; auto.
Qed.

Lemma filter_map_swap {A B : Type} (keep : B -> bool) (h : A -> B) (items : list A) :
  filter keep (map h items) = map h (filter (fun x => keep (h x)) items).
Proof.
  induction items as [|x items IH]; simpl; [reflexivity|].
  destruct (keep (h x)); simpl; now rewrite IH.
Qed.

Lemma map_mapi_from {A B : Type} (f : A -> nat -> B) (g : B -> A) (items : list A) :
  (forall x index, g (f x index) = x) ->
  forall start, map g (mapi_from f start items) = items.
Proof.
  intros H. induction items as [|x items IH]; simpl; intros start; [reflexivity|].
  now rewrite H, IH.
Qed.

Lemma map_of_mapi_from {A B C : Type} (f : A -> nat -> B) (g : B -> C) (items : list A) :
  forall start,
    map g (mapi_from f start items) = mapi_from (fun x index => g (f x index)) start items.
Proof.
  induction items as [|x items IH]; simpl; intros start; [reflexivity|].
  now rewrite IH.
Qed.

Lemma flat_map_at_key {B : Type} (market : string) (found : list B) (keys : list string) :
  NoDup keys ->
  flat_map (fun key => if String.eqb key market then found else []) keys
  = if existsb (fun key => String.eqb key market) keys then found else [].
Proof.
  induction keys as [|k keys IH]; simpl; intros Hnd; [reflexivity|].
  inversion Hnd as [|? ? Hk Hnd']; subst.
  rewrite (IH Hnd').
  destruct (String.eqb_spec k market) as [->|Hne]; simpl; [|reflexivity].
  replace (existsb (fun key => String.eqb key market) keys) with false.
  - apply app_nil_r.
  - symmetry. apply not_true_is_false. intros E.
    apply existsb_exists in E. destruct E as (k & Hin & E).
    apply String.eqb_eq in E. subst k. contradiction.
Qed.

Section LoansOfOneMarket.

Variable Number : string -> float.
Variable pow10 : float -> float.
Variable toUpperCase toLowerCase : string -> string.

Lemma borrowed_of_market prices market marketReserves :
  map borrowed
    (loansOfMarket Number pow10 toUpperCase toLowerCase prices (market, marketReserves))
  = borrowedAssetsOf Number pow10 toUpperCase toLowerCase marketReserves prices.
Proof.
  unfold loansOfMarket, mapi. now apply map_mapi_from.
Qed.

Lemma loans_filtered_by_market prices market key marketReserves :
  filter (fun loan => String.eqb (marketName loan) market)
    (loansOfMarket Number pow10 toUpperCase toLowerCase prices (key, marketReserves))
  = if String.eqb key market
    then loansOfMarket Number pow10 toUpperCase toLowerCase prices (key, marketReserves)
    else [].
Proof.
  destruct (String.eqb key market) eqn:E.
  - apply filter_all. intros loan Hin.
    apply in_loansOfMarket in Hin. destruct Hin as (-> & _). exact E.
  - apply filter_nil. intros loan Hin.
    apply in_loansOfMarket in Hin. destruct Hin as (-> & _). exact E.
Qed.

Lemma loans_by_market reserves prices market :
  filter (fun loan => String.eqb (marketName loan) market)
    (buildLoanPositions Number pow10 toUpperCase toLowerCase reserves prices)
  = loansOfMarket Number pow10 toUpperCase toLowerCase prices
      (market, recordsOfMarket reserves market).
Proof.
  destruct (groupByMarket_grouped reserves) as (Hnd & Hgroups & Hfiled).
  unfold buildLoanPositions. rewrite filter_flat_map.
  transitivity
    (flat_map (fun key =>
                 if String.eqb key market
                 then loansOfMarket Number pow10 toUpperCase toLowerCase prices
                        (market, recordsOfMarket reserves market)
                 else [])
              (map fst (groupByMarket reserves))).
  - rewrite flat_map_map.
    apply flat_map_agree. intros [key marketReserves] Hin. cbn [fst].
    rewrite loans_filtered_by_market.
    destruct (String.eqb_spec key market) as [->|_]; [|reflexivity].
    now rewrite (Hgroups _ _ Hin).
  - rewrite (flat_map_at_key market _ _ Hnd).
    destruct (existsb _ (map fst (groupByMarket reserves))) eqn:E; [reflexivity|].
    rewrite recordsOfMarket_absent; [reflexivity|].
    intros reserve Hin Hname.
    assert (Hex : existsb (fun key => String.eqb key market)
                    (map fst (groupByMarket reserves)) = true).
    { apply existsb_exists. exists (Raw.__marketName reserve).
      split; [now apply Hfiled|now apply String.eqb_eq]. }
    congruence.
Qed.

Lemma ids_of_market prices market marketReserves :
  map id
    (loansOfMarket Number pow10 toUpperCase toLowerCase prices (market, marketReserves))
  = mapi (fun asset index =>
            (market ++ "-" ++ address asset ++ "-" ++ Js.string_of_index index)%string)
         (borrowedAssetsOf Number pow10 toUpperCase toLowerCase marketReserves prices).
Proof.
  unfold loansOfMarket, mapi. rewrite map_of_mapi_from. reflexivity.
Qed.

End LoansOfOneMarket.

(** *** Weighted averages in range *)


(** ** Claim C1 *)

(** C1 fails as stated: with 1e308 USD of collateral at threshold 0.8 and a
    debt of 0.001 USD the debt is positive, yet the quotient overflows and
    the health factor is +infinity. *)
Lemma healthFactor_infinite_with_positive_debt :
  let m := computeLoanMetrics (Some (singleCollateralLoan 1 1e308 0.8 0.001 1)) in
  (debt m >? 0) = true
  /\ (debt m =? 0) = false
  /\ healthFactor m = infinity
  /\ Js.isFinite (healthFactor m) = false.
Proof. vm_compute. repeat split. Qed.

(** C1, amended: the health factor is +infinity whenever debt > 0 does not
    hold, in particular when debt = 0; when debt > 0 it is
    (collateralUSD * lt) / debt in double precision, which is >= 0 and not
    NaN when debt, collateralUSD and lt are finite and collateralUSD and lt
    are >= 0; and a loan whose collateral sums to zero, with positive debt,
    has health factor 0. *)
Theorem healthFactor_rule (loan : LoanPosition) :
  let m := computeLoanMetrics (Some loan) in
  debt m = totalBorrowedUsd loan
  /\ collateralUSD m = totalSuppliedUsd loan
  /\ ((debt m >? 0) = false -> healthFactor m = infinity)
  /\ ((debt m =? 0) = true -> healthFactor m = infinity)
  /\ ((debt m >? 0) = true -> healthFactor m = collateralUSD m * lt m / debt m)
  /\ ((debt m >? 0) = true ->
      is_finite (debt m) = true ->
      is_finite (collateralUSD m) = true -> (0 <=? collateralUSD m) = true ->
      is_finite (lt m) = true -> (0 <=? lt m) = true ->
      (0 <=? healthFactor m) = true /\ is_nan (healthFactor m) = false)
  /\ ((debt m >? 0) = true ->
      totalSuppliedUsd loan = sumOf usdValue (supplied loan) ->
      (collateralUSD m =? 0) = true ->
      (healthFactor m =? 0) = true).
Proof.
  intros m; subst m.
  cbn [computeLoanMetrics debt collateralUSD lt healthFactor].
  split; [reflexivity|]. split; [reflexivity|].
  split; [intros ->; reflexivity|].
  split; [intros H; now rewrite (eqb0_not_gt0 _ H)|].
  split; [intros ->; reflexivity|].
  split.
  - intros Hd Hfd Hfc Hc Hfl Hl. rewrite Hd.
    assert (H : (0 <=? totalSuppliedUsd loan * weightedAverage (supplied loan) liqThreshold
                       / totalBorrowedUsd loan) = true).
    { apply div_nonneg; auto.
      - apply mul_nonneg; auto.
      - rewrite Hfd. apply orb_true_r. }
    split; [exact H|apply le0_not_nan, H].
  - intros Hd Hsum Hc. rewrite Hd.
    unfold weightedAverage, weightedAverageOver.
    fold (sumOf usdValue (supplied loan)). rewrite <- Hsum.
    rewrite (eqb0_le0 _ Hc).
    apply zero_times_zero_over_positive; assumption.
Qed.

(** The sample loan (health factor 1.8), a loan without debt and a loan
    whose collateral is worth nothing. *)
Lemma healthFactor_rule_witness :
  healthFactor (computeLoanMetrics (Some sampleLoan)) = 1.8
  /\ (0 <=? healthFactor (computeLoanMetrics (Some sampleLoan))) = true
  /\ healthFactor (computeLoanMetrics (Some (singleCollateralLoan 10 3000 0.825 0 1)))
     = infinity
  /\ (healthFactor (computeLoanMetrics (Some (singleCollateralLoan 0 3000 0.825 15000 1)))
      =? 0) = true.
Proof.
  pose proof (healthFactor_rule sampleLoan) as (_ & _ & _ & _ & H1 & H2 & _).
  pose proof (healthFactor_rule (singleCollateralLoan 10 3000 0.825 0 1))
    as (_ & _ & H3 & _).
  pose proof (healthFactor_rule (singleCollateralLoan 0 3000 0.825 15000 1))
    as (_ & _ & _ & _ & _ & _ & H4).
  split; [rewrite H1; reflexivity|].
  split; [apply H2; reflexivity|].
  split; [apply H3; reflexivity|].
  apply H4; reflexivity.
Defined.

(** ** Claim C2 *)

(** C2: on the "no selection" input ([null]) [computeLoanMetrics] returns the
    neutral, fully defined record: debt 0, healthFactor, liqPrice and
    collateralUSDAtLiq [+infinity], all rates and every other number 0, both
    alerts false and the symbol "—". *)
Theorem computeLoanMetrics_no_selection :
  computeLoanMetrics None =
  {| units := 0; px := 0; debt := 0; collateralUSD := 0; equity := 0; ltv := 0;
     leverage := 0; healthFactor := infinity; liqPrice := infinity;
     collateralUSDAtLiq := infinity; ltvAtLiq := 0; priceDropToLiq := 0;
     supplyEarnUSD := 0; borrowCostUSD := 0; deployEarnUSD := 0; netEarnUSD := 0;
     netAPYOnEquity := 0; maxBorrowByLTV := 0; borrowHeadroom := 0;
     borrowPowerUsed := 0; equityMoveFor10Pct := 0; collateralBufferUSD := 0;
     alertHF := false; alertLTV := false; ltvMax := 0; lt := 0; rSupply := 0;
     rBorrow := 0; rDeploy := 0; primaryCollateralSymbol := "—" |}.
Proof. reflexivity. Qed.

(** ** Claim C3 *)


(** Finite fields are not enough: when the supplied values sum to
    +infinity, and the weighted sum of the thresholds with them, the
    threshold lt is Infinity / Infinity. *)
Lemma metrics_nan_on_oversized_collateral :
  finiteLoan oversizedLoan = true
  /\ averageInRange (supplied oversizedLoan) liqThreshold = false
  /\ is_nan (lt (computeLoanMetrics (Some oversizedLoan))) = true.
Proof. vm_compute. repeat split. Qed.



(** ** Claim C4 *)

(** C4: for every loan, collateralUSDAtLiq = debt / lt if lt > 0, else
    +infinity (debt and collateralUSD being the loan's totals and lt the
    weighted liquidation threshold); and when a primary collateral exists,
    liqPrice = (collateralUSDAtLiq - (collateralUSD - primary.usdValue))
    / primary.amount if primary.amount > 0, else +infinity. *)
Theorem liquidation_figures (loan : LoanPosition) :
  let m := computeLoanMetrics (Some loan) in
  debt m = totalBorrowedUsd loan
  /\ collateralUSD m = totalSuppliedUsd loan
  /\ lt m = weightedAverage (supplied loan) liqThreshold
  /\ collateralUSDAtLiq m = (if lt m >? 0 then debt m / lt m else infinity)
  /\ forall primary, primaryOf (supplied loan) = Some primary ->
       liqPrice m =
         if amount primary >? 0
         then (collateralUSDAtLiq m - (collateralUSD m - usdValue primary))
              / amount primary
         else infinity.
Proof.
  intros m; subst m.
  cbn [computeLoanMetrics debt collateralUSD lt collateralUSDAtLiq liqPrice].
  repeat split.
  intros primary ->. reflexivity.
Qed.

(** The sample loan has a primary collateral with a positive amount. *)
Lemma liquidation_figures_witness :
  exists primary,
    primaryOf (supplied sampleLoan) = Some primary
    /\ liqPrice (computeLoanMetrics (Some sampleLoan)) =
         (collateralUSDAtLiq (computeLoanMetrics (Some sampleLoan))
          - (collateralUSD (computeLoanMetrics (Some sampleLoan)) - usdValue primary))
         / amount primary.
Proof.
  eexists. split; [reflexivity|].
  exact (proj2 (proj2 (proj2 (proj2 (liquidation_figures sampleLoan)))) _ eq_refl).
Defined.

(** ** Claim C5 *)

(** C5: the portfolio's averageHealthFactor is the arithmetic mean of the
    health factors of exactly the loans whose health factor is finite: their
    sum from left to right divided by a number whose value is their count;
    it is +infinity when none is finite, and a loan whose health factor is
    not finite leaves the average as it is without that loan. The portfolio
    of a non-empty loan list is built from the per-loan metrics. Two loans
    with health factors 1.8 and +infinity average to 1.8, and two finite
    health factors around one that is not average to half their sum. *)
Theorem averageHealthFactor_is_finite_mean :
  (forall metrics : list Computed,
     filter Js.isFinite (map healthFactor metrics) = [] ->
     Portfolio.averageHealthFactor (portfolioOfMetrics metrics) = infinity)
  /\ (forall metrics : list Computed,
        let finiteHealthFactors := filter Js.isFinite (map healthFactor metrics) in
        finiteHealthFactors <> [] ->
        (Z.of_nat (List.length finiteHealthFactors) < 2 ^ 53)%Z ->
        exists count : float,
          SF.integerValue (Prim2SF count)
          = Some (Z.of_nat (List.length finiteHealthFactors))
          /\ Portfolio.averageHealthFactor (portfolioOfMetrics metrics)
             = sumOf (fun healthFactor => healthFactor) finiteHealthFactors / count)
  /\ (forall (before after : list Computed) (m : Computed),
        Js.isFinite (healthFactor m) = false ->
        Portfolio.averageHealthFactor (portfolioOfMetrics (before ++ m :: after)) =
        Portfolio.averageHealthFactor (portfolioOfMetrics (before ++ after)))
  /\ (forall result : FetchState,
        loans result <> [] ->
        portfolio (Some result) =
          Some (portfolioOfMetrics
                  (map (fun loan => computeLoanMetrics (Some loan)) (loans result))))
  /\ (forall m1 m2 : Computed,
        healthFactor m1 = 1.8 -> healthFactor m2 = infinity ->
        Portfolio.averageHealthFactor (portfolioOfMetrics [m1; m2]) = 1.8)
  /\ (forall m1 m2 m3 : Computed,
        Js.isFinite (healthFactor m1) = true ->
        Js.isFinite (healthFactor m2) = false ->
        Js.isFinite (healthFactor m3) = true ->
        Portfolio.averageHealthFactor (portfolioOfMetrics [m1; m2; m3])
        = (0 + healthFactor m1 + healthFactor m3) / 2).
Proof.
  split; [|split; [|split; [|split; [|split]]]].
  - intros metrics Hnone.
    cbn [portfolioOfMetrics Portfolio.averageHealthFactor].
    now rewrite Hnone.
  - intros metrics finiteHealthFactors Hsome Hbound.
    exists (Js.of_nat (List.length finiteHealthFactors)).
    split; [now apply of_nat_integerValue|].
    cbn [portfolioOfMetrics Portfolio.averageHealthFactor].
    fold finiteHealthFactors.
    destruct finiteHealthFactors; [congruence|reflexivity].
  - intros before after m Hm.
    cbn [portfolioOfMetrics Portfolio.averageHealthFactor].
    rewrite !map_app, !filter_app. cbn [map filter]. now rewrite Hm.
  - intros result Hne. unfold portfolio.
    destruct (loans result); [congruence|reflexivity].
  - intros m1 m2 H1 H2.
    cbn [portfolioOfMetrics Portfolio.averageHealthFactor map filter].
    rewrite H1, H2. reflexivity.
  - intros m1 m2 m3 H1 H2 H3.
    cbn [portfolioOfMetrics Portfolio.averageHealthFactor map filter].
    rewrite H1, H2, H3. reflexivity.
Qed.

(** Three loans with health factors 1, +infinity (no debt) and 3: the
    average is 2, the sum of the two finite ones divided by their count; and
    the portfolio of the sample loan alone. *)
Lemma averageHealthFactor_is_finite_mean_witness :
  (exists count : float,
      SF.integerValue (Prim2SF count) = Some 2%Z
      /\ Portfolio.averageHealthFactor
           (portfolioOfMetrics
              [ computeLoanMetrics (Some (singleCollateralLoan 2 1 0.5 1 1));
                computeLoanMetrics None;
                computeLoanMetrics (Some (singleCollateralLoan 6 1 0.5 1 1)) ])
         = sumOf (fun healthFactor => healthFactor) [1; 3] / count)
  /\ Portfolio.averageHealthFactor
       (portfolioOfMetrics
          [ computeLoanMetrics (Some (singleCollateralLoan 2 1 0.5 1 1));
            computeLoanMetrics None;
            computeLoanMetrics (Some (singleCollateralLoan 6 1 0.5 1 1)) ])
     = 2
  /\ Portfolio.averageHealthFactor
       (portfolioOfMetrics [computeLoanMetrics (Some sampleLoan); computeLoanMetrics None])
     = 1.8
  /\ portfolio (Some (sampleState [sampleLoan]))
     = Some (portfolioOfMetrics [computeLoanMetrics (Some sampleLoan)]).
Proof.
  destruct averageHealthFactor_is_finite_mean as (_ & Hmean & _ & Hportfolio & Hone & Htwo).
  split; [|split; [|split]].
  - apply (Hmean
             [ computeLoanMetrics (Some (singleCollateralLoan 2 1 0.5 1 1));
               computeLoanMetrics None;
               computeLoanMetrics (Some (singleCollateralLoan 6 1 0.5 1 1)) ]).
    + discriminate.
    + reflexivity.
  - apply (Htwo (computeLoanMetrics (Some (singleCollateralLoan 2 1 0.5 1 1)))
             (computeLoanMetrics None)
             (computeLoanMetrics (Some (singleCollateralLoan 6 1 0.5 1 1))));
      reflexivity.
  - apply Hone; reflexivity.
  - apply (Hportfolio (sampleState [sampleLoan])). discriminate.
Defined.

(** ** Claim C6 *)

(** C6 fails as stated: for a single asset worth 3 USD with liquidation
    threshold 0.8 the sum of usdValue is positive, the only selector value
    is 0.8, and the weighted average is 0.8000000000000002, above it. *)
Lemma weightedAverage_above_max :
  let items := supplied (singleCollateralLoan 3 1 0.8 1 1) in
  (sumOf usdValue items >? 0) = true
  /\ map liqThreshold items = [0.8]
  /\ weightedAverage items liqThreshold = 0.8000000000000002
  /\ (weightedAverage items liqThreshold <=? 0.8) = false.
Proof. vm_compute. repeat split. Qed.

(** C6, amended: [weightedAverage] returns 0 whenever the sum of usdValue
    is <= 0 (the empty list included); otherwise it is the double-precision
    quotient of the weighted sum by the sum of usdValue, whose divisor is not
    zero; when that sum is > 0 and finite and the usdValues and selector
    values are finite and >= 0 the result is >= 0 and not NaN; and in exact
    arithmetic, with weights >= 0 of positive sum, the result lies between
    any lower and upper bound of the selector values. *)
Theorem weightedAverage_rules :
  (forall items valueSelector,
     (sumOf usdValue items <=? 0) = true -> weightedAverage items valueSelector = 0)
  /\ (forall valueSelector, weightedAverage [] valueSelector = 0)
  /\ (forall items valueSelector,
        (sumOf usdValue items <=? 0) = false ->
        weightedAverage items valueSelector =
          sumOf (fun item => valueSelector item * usdValue item) items
          / sumOf usdValue items
        /\ (sumOf usdValue items =? 0) = false)
  /\ (forall items valueSelector,
        (sumOf usdValue items >? 0) = true ->
        is_finite (sumOf usdValue items) = true ->
        (forall a, In a items ->
           is_finite (usdValue a) = true /\ (0 <=? usdValue a) = true
           /\ is_finite (valueSelector a) = true /\ (0 <=? valueSelector a) = true) ->
        (0 <=? weightedAverage items valueSelector) = true
        /\ is_nan (weightedAverage items valueSelector) = false)
  /\ (forall (A : Type) (weight valueSelector : A -> Q) (items : list A) (lo hi : Q),
        (forall a, In a items ->
           (0 <= weight a)%Q /\ (lo <= valueSelector a <= hi)%Q) ->
        (0 < sumOfQ weight items)%Q ->
        (lo <= weightedAverageQ weight items valueSelector <= hi)%Q).
Proof.
  split; [|split; [|split; [|split]]].
  - intros items sel H. unfold weightedAverage, weightedAverageOver.
    fold (sumOf usdValue items). now rewrite H.
  - reflexivity.
  - intros items sel H. unfold weightedAverage, weightedAverageOver.
    fold (sumOf usdValue items). rewrite H.
    split; [reflexivity|]. now apply not_le0_not_zero.
  - intros items sel Hpos Hfin Hitems.
    unfold weightedAverage, weightedAverageOver.
    fold (sumOf usdValue items). rewrite (gt0_not_le0 _ Hpos).
    fold (sumOf (fun item => sel item * usdValue item) items).
    assert (H : (0 <=? sumOf (fun item => sel item * usdValue item) items
                       / sumOf usdValue items) = true).
    { apply div_nonneg; auto.
      - apply sumOf_nonneg. intros a Ha.
        destruct (Hitems a Ha) as (? & ? & ? & ?). now apply mul_nonneg.
      - rewrite Hfin. apply orb_true_r. }
    split; [exact H|apply le0_not_nan, H].
  - intros A weight sel items lo hi. apply weightedAverageQ_bounds.
Qed.

(** The sample collateral (threshold 0.9), and two equal weights with
    selector values 4/5 and 9/10 in exact arithmetic. *)
Lemma weightedAverage_rules_witness :
  weightedAverage (supplied sampleLoan) liqThreshold = 0.9
  /\ (0 <=? weightedAverage (supplied sampleLoan) liqThreshold) = true
  /\ (1 # 2 <= weightedAverageQ snd [(4 # 5, 1); (9 # 10, 1)] fst <= 1)%Q.
Proof.
  destruct weightedAverage_rules as (_ & _ & H1 & H2 & H3).
  split; [|split].
  - rewrite (proj1 (H1 (supplied sampleLoan) liqThreshold eq_refl)). reflexivity.
  - apply H2; try reflexivity.
    intros a [<-|[]]. repeat split.
  - apply H3.
    + intros a [<-|[<-|[]]]; simpl; repeat split; discriminate.
    + reflexivity.
Defined.

(** ** Claim C7 *)

Section BuilderInvariants.

Variable Number : string -> float.
Variable pow10 : float -> float.
Variable toUpperCase toLowerCase : string -> string.


End BuilderInvariants.


(** ** Claim C8 *)

(** C8: with a non-empty supplied list the primary collateral is a supplied
    asset, at some index, such that no supplied asset has a larger usdValue
    and no asset before it has the same usdValue (the first of the largest
    is chosen); when no usdValue is NaN every supplied usdValue is at most
    the primary's.  The metrics read their units, px and symbol from it.
    With an empty supplied list the primary is null and units = 0, px = 0,
    liqPrice = +infinity, priceDropToLiq = 0. *)
Theorem primary_collateral_choice (loan : LoanPosition) :
  let m := computeLoanMetrics (Some loan) in
  (supplied loan <> [] ->
   exists primary index,
     primaryOf (supplied loan) = Some primary
     /\ nth_error (supplied loan) index = Some primary
     /\ (forall a, In a (supplied loan) -> (usdValue a >? usdValue primary) = false)
     /\ (forall j a, (j < index)%nat -> nth_error (supplied loan) j = Some a ->
                     (usdValue a =? usdValue primary) = false)
     /\ ((forall a, In a (supplied loan) -> is_nan (usdValue a) = false) ->
         forall a, In a (supplied loan) -> (usdValue a <=? usdValue primary) = true)
     /\ units m = amount primary
     /\ px m = usdPrice primary
     /\ primaryCollateralSymbol m = symbol primary)
  /\ (supplied loan = [] ->
      primaryOf (supplied loan) = None
      /\ units m = 0 /\ px m = 0
      /\ liqPrice m = infinity /\ priceDropToLiq m = 0).
Proof.
  intros m; subst m; split.
  - intros Hne.
    destruct (supplied loan) as [|first rest] eqn:Es; [congruence|].
    destruct (fold_larger rest [first] first 0%nat) as (i & Hi & Hmax & Htie).
    + reflexivity.
    + intros a [<-|[]]. apply gt_irrefl.
    + intros j a Hj. lia.
    + simpl app in *.
      exists (fold_left larger rest first), i.
      split; [reflexivity|].
      split; [exact Hi|].
      split; [exact Hmax|].
      split; [exact Htie|].
      split.
      * intros Hnan a Ha. apply gt_false_le; auto.
        apply Hnan. eapply nth_error_In; eauto.
      * cbn [computeLoanMetrics units px primaryCollateralSymbol].
        rewrite Es. auto.
  - intros Es.
    cbn [computeLoanMetrics units px liqPrice priceDropToLiq].
    rewrite Es. simpl. auto.
Qed.


(** The sample loan has a primary collateral among its supplied assets; the
    loan without collateral has none and a liquidation price of +infinity. *)
Lemma primary_collateral_choice_witness :
  (exists primary index,
     primaryOf (supplied sampleLoan) = Some primary
     /\ nth_error (supplied sampleLoan) index = Some primary)
  /\ liqPrice (computeLoanMetrics (Some unsecuredLoan)) = infinity.
Proof.
  split.
  - destruct (proj1 (primary_collateral_choice sampleLoan)) as (p & i & H1 & H2 & _);
      [discriminate|].
    exists p, i. split; assumption.
  - apply (proj2 (primary_collateral_choice unsecuredLoan)). reflexivity.
Defined.

(** ** Claim C9 *)

(** C9 fails as stated: with 30,000 USD of collateral and a debt worth 0
    the equity is positive and the leverage is 1, not +infinity. *)
Lemma leverage_one_without_debt :
  let m := computeLoanMetrics (Some (singleCollateralLoan 10 3000 0.825 15000 0)) in
  (debt m =? 0) = true
  /\ (equity m >? 0) = true
  /\ leverage m = 1
  /\ (leverage m =? infinity) = false.
Proof. vm_compute. repeat split. Qed.

(** C9, amended: with debt = 0 and equity > 0 the equity equals
    collateralUSD and leverage = collateralUSD / equity, which is 1 when
    collateralUSD is finite; borrowCostUSD is 0 when the borrow rate is
    finite, and deployEarnUSD is 0. *)
Theorem leverage_without_debt (loan : LoanPosition) :
  let m := computeLoanMetrics (Some loan) in
  (debt m =? 0) = true -> (equity m >? 0) = true ->
  equity m = collateralUSD m
  /\ leverage m = collateralUSD m / equity m
  /\ (is_finite (collateralUSD m) = true -> leverage m = 1)
  /\ (is_finite (rBorrow m) = true -> (borrowCostUSD m =? 0) = true)
  /\ (deployEarnUSD m =? 0) = true.
Proof.
  intros m; subst m.
  cbn [computeLoanMetrics debt collateralUSD equity leverage rBorrow
       borrowCostUSD deployEarnUSD].
  intros Hd He.
  pose proof (minus_zero _ _ Hd He) as Heq.
  rewrite He, Heq.
  split; [reflexivity|]. split; [reflexivity|].
  split; [|split].
  - intros Hf. apply div_self; [exact Hf|]. now rewrite <- Heq.
  - intros Hr. now apply zero_times_finite.
  - now apply zero_times_finite.
Qed.

(** 30,000 USD of collateral against a debt priced 0. *)
Lemma leverage_without_debt_witness :
  leverage (computeLoanMetrics (Some (singleCollateralLoan 10 3000 0.825 15000 0))) = 1.
Proof.
  refine (proj1 (proj2 (proj2
    (leverage_without_debt (singleCollateralLoan 10 3000 0.825 15000 0) _ _))) _);
    reflexivity.
Defined.

(** ** Claim C10 *)

(** C10 fails as stated: for two loans with collateral 1000.1 and 1200.4 USD
    and debt 310.2 and 99.99 USD, totalNetWorth is 1790.3100000000002 and
    totalCollateral - totalDebt is 1790.31. *)
Lemma netWorth_differs_from_collateral_minus_debt :
  exists p,
    portfolio (Some (sampleState [ singleCollateralLoan 1000.1 1 0.8 310.2 1;
                                   singleCollateralLoan 1200.4 1 0.8 99.99 1 ])) = Some p
    /\ Portfolio.totalNetWorth p = 1790.3100000000002
    /\ Portfolio.totalCollateral p - Portfolio.totalDebt p = 1790.31
    /\ (Portfolio.totalNetWorth p =? Portfolio.totalCollateral p - Portfolio.totalDebt p)
       = false.
Proof. eexists. split; [reflexivity|]. vm_compute. repeat split. Qed.

(** C10, amended: each loan's equity is collateralUSD - debt, and for a
    non-empty loan list totalNetWorth, totalCollateral and totalDebt are the
    left-to-right double-precision sums of the loans' equity, collateral and
    debt; for a single loan totalNetWorth and totalCollateral - totalDebt are
    the same number; and in exact arithmetic the sum of the differences is
    the difference of the sums. *)
Theorem netWorth_rollup :
  (forall loan,
     equity (computeLoanMetrics (Some loan))
     = collateralUSD (computeLoanMetrics (Some loan))
       - debt (computeLoanMetrics (Some loan)))
  /\ (forall result p,
        portfolio (Some result) = Some p ->
        Portfolio.totalNetWorth p =
          sumOf (fun loan => totalSuppliedUsd loan - totalBorrowedUsd loan) (loans result)
        /\ Portfolio.totalCollateral p = sumOf totalSuppliedUsd (loans result)
        /\ Portfolio.totalDebt p = sumOf totalBorrowedUsd (loans result))
  /\ (forall result p loan,
        portfolio (Some result) = Some p -> loans result = [loan] ->
        Js.sameValueZero (Portfolio.totalNetWorth p)
          (Portfolio.totalCollateral p - Portfolio.totalDebt p) = true)
  /\ (forall (A : Type) (collateralOf debtOf : A -> Q) (items : list A),
        (sumOfQ (fun item => collateralOf item - debtOf item) items
         == sumOfQ collateralOf items - sumOfQ debtOf items)%Q).
Proof.
  assert (Hsums : forall result p,
            portfolio (Some result) = Some p ->
            Portfolio.totalNetWorth p =
              sumOf (fun loan => totalSuppliedUsd loan - totalBorrowedUsd loan) (loans result)
            /\ Portfolio.totalCollateral p = sumOf totalSuppliedUsd (loans result)
            /\ Portfolio.totalDebt p = sumOf totalBorrowedUsd (loans result)).
  { intros result p. unfold portfolio.
    destruct (Nat.eqb (List.length (loans result)) 0); [discriminate|].
    intros [= <-].
    cbn [portfolioOfMetrics Portfolio.totalNetWorth Portfolio.totalCollateral
         Portfolio.totalDebt].
    rewrite !sumOf_map. repeat split. }
  split; [reflexivity|]. split; [exact Hsums|]. split.
  - intros result p loan Hp Hl.
    destruct (Hsums result p Hp) as (-> & -> & ->). rewrite Hl.
    apply single_loan_sums.
  - intros A. apply sumOfQ_minus.
Qed.

(** The portfolio of the sample loan alone. *)
Lemma netWorth_rollup_witness :
  exists p,
    portfolio (Some (sampleState [sampleLoan])) = Some p
    /\ Portfolio.totalDebt p = sumOf totalBorrowedUsd [sampleLoan]
    /\ Js.sameValueZero (Portfolio.totalNetWorth p)
         (Portfolio.totalCollateral p - Portfolio.totalDebt p) = true.
Proof.
  eexists. split; [reflexivity|].
  destruct netWorth_rollup as (_ & H1 & H2 & _).
  split.
  - apply (H1 (sampleState [sampleLoan]) _ eq_refl).
  - apply (H2 (sampleState [sampleLoan]) _ sampleLoan eq_refl eq_refl).
Defined.

(** * Further properties of the code *)

(** ** Unit converters *)

(** X1: whatever the host's [Number] and [10 ** x] return, [n] and
    [parseBalance] return a finite number (never NaN or an infinity), and
    [n] reads a string with a comma as it reads the string without it. *)
Theorem converters_return_finite_numbers :
  forall (Number : string -> float) (pow10 : float -> float),
    (forall value, is_finite (n Number value) = true)
    /\ (forall raw decimals, is_finite (parseBalance Number pow10 raw decimals) = true)
    /\ (forall before after : string,
          n Number (inl (before ++ "," ++ after)%string)
          = n Number (inl (before ++ after)%string)).
Proof.
  intros Number pow10. split; [|split].
  - apply n_is_finite.
  - apply parseBalance_is_finite.
  - intros before after. unfold n.
    now rewrite !removeCommas_app.
Qed.

(** X2: for a value that is not NaN and bounds [min <= max], [clamp] lands
    within the bounds; a value already within them is kept (exactly so when
    strictly inside); and a NaN value stays NaN. *)
Theorem clamp_within_bounds (value min max : float) :
  (is_nan value = false -> (min <=? max) = true ->
   (min <=? clamp value min max) = true /\ (clamp value min max <=? max) = true)
  /\ ((min <=? value) = true -> (value <=? max) = true ->
      (clamp value min max =? value) = true)
  /\ ((min <? value) = true -> (value <? max) = true -> clamp value min max = value)
  /\ (is_nan value = true -> is_nan (clamp value min max) = true).
Proof.
  split; [apply clamp_in_bounds|]. split; [apply clamp_keeps_value|]. split.
  - intros Hlo Hhi.
    destruct (ltb_not_nan _ _ Hlo) as [Hmin Hv].
    destruct (ltb_not_nan _ _ Hhi) as [_ Hmax].
    unfold clamp, Js.Math_max. rewrite Hmin, Hv, Hlo. simpl.
    unfold Js.Math_min. rewrite Hmax, Hv, (ltb_asym _ _ Hhi), Hhi. reflexivity.
  - intros Hv. unfold clamp, Js.Math_max. rewrite Hv, orb_true_r.
    unfold Js.Math_min. now rewrite is_nan_nan, orb_true_r.
Qed.

(** 0.5 lies within [0, 1], strictly. *)
Lemma clamp_within_bounds_witness : clamp 0.5 0 1 = 0.5.
Proof. apply (proj1 (proj2 (proj2 (clamp_within_bounds 0.5 0 1)))); reflexivity. Defined.

(** X3: whatever the host's [Number] returns on the raw string, [fromBps]
    is a finite number within [0, 0.99]. *)
Theorem fromBps_within_range :
  forall (Number : string -> float) (raw : string),
    (0 <=? fromBps Number raw) = true
    /\ (fromBps Number raw <=? 0.99) = true
    /\ is_finite (fromBps Number raw) = true.
Proof.
  intros Number raw. destruct (fromBps_in_range Number raw) as [Hlo Hhi].
  split; [exact Hlo|]. split; [exact Hhi|].
  now apply (between_finite 0 _ 0.99).
Qed.

(** X4: [fromRay] is never negative; and when the host's [10 ** 27] is
    positive it is a number [>= 0], not NaN. *)
Theorem fromRay_not_negative :
  forall (Number : string -> float) (pow10 : float -> float) (raw : string),
    (fromRay Number pow10 raw <? 0) = false
    /\ ((pow10 27 >? 0) = true ->
        (0 <=? fromRay Number pow10 raw) = true
        /\ is_nan (fromRay Number pow10 raw) = false).
Proof.
  intros Number pow10 raw. unfold fromRay.
  set (x := n Number (inl raw) / pow10 27).
  assert (H : is_nan x = false -> (0 <=? Js.Math_max 0 x) = true
                                  /\ is_nan (Js.Math_max 0 x) = false).
  { intros Hx. split.
    - apply (Math_max_cases 0 x eq_refl Hx).
    - now apply Math_max_not_nan. }
  split.
  - destruct (is_nan x) eqn:Hx.
    + unfold Js.Math_max. rewrite Hx. reflexivity.
    + destruct (H eq_refl) as [Hle _].
      destruct (Js.Math_max 0 x <? 0) eqn:E; [|reflexivity].
      now rewrite (ltb_not_leb _ _ E) in Hle.
  - intros Hp. apply H. unfold x.
    apply div_not_nan; [apply finite_not_nan, n_is_finite|exact Hp|].
    now rewrite n_is_finite.
Qed.

(** With the sample host, whose [10 ** 27] is 1e27. *)
Lemma fromRay_not_negative_witness :
  (0 <=? fromRay sampleNumber samplePow10 "5") = true.
Proof.
  apply (proj2 (fromRay_not_negative sampleNumber samplePow10 "5")). reflexivity.
Defined.

(** ** Position builder *)

(** X5: an asset position built from a record has usdValue = amount *
    usdPrice, its ticker in upper case, and maxLTV and liqThreshold within
    [0, 0.99]; a ticker without a price gets usdPrice 0 and, for a finite
    amount, a usdValue of zero. *)
Theorem toAssetPosition_prices_and_limits :
  forall (Number : string -> float) (pow10 : float -> float)
         (toUpperCase toLowerCase : string -> string)
         (raw : Raw.RawUserReserve) (balance : float) (prices : PriceMap),
    let asset := toAssetPosition Number pow10 toUpperCase toLowerCase raw balance prices in
    symbol asset = toUpperCase (Raw.symbol (Raw.reserve raw))
    /\ usdValue asset = balance * usdPrice asset
    /\ (0 <=? maxLTV asset) = true /\ (maxLTV asset <=? 0.99) = true
    /\ (0 <=? liqThreshold asset) = true /\ (liqThreshold asset <=? 0.99) = true
    /\ (prices (symbol asset) = None ->
        usdPrice asset = 0
        /\ (is_finite balance = true -> (usdValue asset =? 0) = true)).
Proof.
  intros Number pow10 toUpperCase toLowerCase raw balance prices asset.
  destruct (toAssetPosition_fields Number pow10 toUpperCase toLowerCase raw balance prices)
    as (Ha & Hs & Hv & _ & H1 & H2 & H3 & H4 & Hp).
  fold asset in Ha, Hs, Hv, H1, H2, H3, H4, Hp.
  rewrite Ha in Hv.
  repeat split; auto.
  intros Hfin. rewrite Hv, (Hp H). now apply finite_times_zero.
Qed.

(** The WETH record of the sample wallet, under a price list that does not
    know the ticker. *)
Lemma toAssetPosition_prices_and_limits_witness :
  (usdValue (toAssetPosition sampleNumber samplePow10 (fun s => s) (fun s => s)
               (sampleReserve "5" "0" "WETH" "proto_mainnet_v3") 5 (fun _ => None))
   =? 0) = true.
Proof.
  refine (proj2 (proj2 (proj2 (proj2 (proj2 (proj2 (proj2
    (toAssetPosition_prices_and_limits sampleNumber samplePow10 (fun s => s) (fun s => s)
       (sampleReserve "5" "0" "WETH" "proto_mainnet_v3") 5 (fun _ => None)))))))
    eq_refl) eq_refl).
Defined.

(** X6: in every loan that [buildLoanPositions] emits, the borrowed asset
    and every supplied asset have a finite amount > 0, usdValue = amount *
    usdPrice, and maxLTV and liqThreshold within [0, 0.99]; and every
    supplied asset is enabled as collateral. *)
Theorem built_assets_are_well_formed :
  forall (Number : string -> float) (pow10 : float -> float)
         (toUpperCase toLowerCase : string -> string)
         (reserves : list Raw.RawUserReserveWithMarket) (prices : PriceMap)
         (loan : LoanPosition) (asset : AssetPosition),
    In loan (buildLoanPositions Number pow10 toUpperCase toLowerCase reserves prices) ->
    asset = borrowed loan \/ In asset (supplied loan) ->
    is_finite (amount asset) = true
    /\ (amount asset >? 0) = true
    /\ usdValue asset = amount asset * usdPrice asset
    /\ (0 <=? maxLTV asset) = true /\ (maxLTV asset <=? 0.99) = true
    /\ (0 <=? liqThreshold asset) = true /\ (liqThreshold asset <=? 0.99) = true
    /\ (In asset (supplied loan) -> collateralEnabled asset = true).
Proof.
  intros Number pow10 toUpperCase toLowerCase reserves prices loan asset Hloan Hasset.
  unfold buildLoanPositions in Hloan. apply in_flat_map in Hloan.
  destruct Hloan as ([market marketReserves] & _ & Hin).
  apply in_loansOfMarket in Hin. destruct Hin as (_ & Hb & Hs & _).
  assert (Hbuilt : exists (balanceOf : Raw.RawUserReserveWithMarket -> string)
                          (entry : Raw.RawUserReserveWithMarket),
            asset = toAssetPosition Number pow10 toUpperCase toLowerCase entry
                      (parseBalance Number pow10 (balanceOf entry)
                         (Raw.decimals (Raw.reserve entry)))
                      prices
            /\ (amount asset >? 0) = true).
  { destruct Hasset as [-> | Hsup].
    - unfold borrowedAssetsOf in Hb.
      destruct (in_assetsOf _ _ _ _ (fun e => Raw.currentTotalDebt e) _ _ _ Hb)
        as (entry & _ & E & Hpos).
      exists (fun e => Raw.currentTotalDebt e), entry. auto.
    - rewrite Hs in Hsup. apply filter_In in Hsup. destruct Hsup as [Hsup _].
      unfold suppliedAssetsOf in Hsup.
      destruct (in_assetsOf _ _ _ _ (fun e => Raw.currentATokenBalance e) _ _ _ Hsup)
        as (entry & _ & E & Hpos).
      exists (fun e => Raw.currentATokenBalance e), entry. auto. }
  destruct Hbuilt as (balanceOf & entry & E & Hpos).
  destruct (toAssetPosition_fields Number pow10 toUpperCase toLowerCase entry
              (parseBalance Number pow10 (balanceOf entry)
                 (Raw.decimals (Raw.reserve entry))) prices)
    as (Ha & _ & Hv & _ & H1 & H2 & H3 & H4 & _).
  rewrite <- E in Ha, Hv, H1, H2, H3, H4.
  split.
  { rewrite Ha. apply parseBalance_is_finite. }
  repeat split; auto.
  intros Hsup. rewrite Hs in Hsup. apply filter_In in Hsup. apply Hsup.
Qed.

(** The loan of the sample wallet and its borrowed asset. *)
Lemma built_assets_are_well_formed_witness :
  exists loan,
    In loan (sampleBuild sampleReserves)
    /\ is_finite (amount (borrowed loan)) = true.
Proof.
  eexists. split; [left; reflexivity|].
  eapply (built_assets_are_well_formed sampleNumber samplePow10 (fun s => s) (fun s => s)
            sampleReserves samplePrices).
  - left. reflexivity.
  - left. reflexivity.
Defined.

(** X7: [buildLoanPositions] emits exactly one loan per record whose debt
    balance parses to a positive amount: in every market the borrowed
    assets of its loans are the positions of the market's records with a
    positive debt, one each and in the order of the records, numbered from
    0 in their ids; so there are as many loans as such records, whatever
    the prices. *)
Theorem one_loan_per_positive_debt :
  forall (Number : string -> float) (pow10 : float -> float)
         (toUpperCase toLowerCase : string -> string)
         (reserves : list Raw.RawUserReserveWithMarket) (prices : PriceMap),
    let loans :=
      buildLoanPositions Number pow10 toUpperCase toLowerCase reserves prices in
    let owes (entry : Raw.RawUserReserveWithMarket) :=
      parseBalance Number pow10 (Raw.currentTotalDebt entry)
        (Raw.decimals (Raw.reserve entry)) >? 0 in
    let debtPosition (entry : Raw.RawUserReserveWithMarket) :=
      toAssetPosition Number pow10 toUpperCase toLowerCase entry
        (parseBalance Number pow10 (Raw.currentTotalDebt entry)
           (Raw.decimals (Raw.reserve entry)))
        prices in
    let loansOf (market : string) :=
      filter (fun loan => String.eqb (marketName loan) market) loans in
    (forall market,
        map borrowed (loansOf market)
        = map debtPosition (filter owes (recordsOfMarket reserves market)))
    /\ (forall market,
          map id (loansOf market)
          = mapi (fun asset index =>
                    (market ++ "-" ++ address asset ++ "-"
                     ++ Js.string_of_index index)%string)
                 (map borrowed (loansOf market)))
    /\ List.length loans = List.length (filter owes reserves).
Proof.
  intros Number pow10 toUpperCase toLowerCase reserves prices loans owes debtPosition
         loansOf.
  assert (Hborrowed : forall market,
             map borrowed (loansOf market)
             = borrowedAssetsOf Number pow10 toUpperCase toLowerCase
                 (recordsOfMarket reserves market) prices).
  { intros market. unfold loansOf, loans.
    rewrite loans_by_market. apply borrowed_of_market. }
  split; [|split].
  - intros market. rewrite Hborrowed. unfold borrowedAssetsOf.
    rewrite filter_map_swap. apply map_ext_in_iff. reflexivity.
  - intros market. rewrite Hborrowed. unfold loansOf, loans.
    rewrite loans_by_market. apply ids_of_market.
  - destruct (groupByMarket_grouped reserves) as (Hnd & Hgroups & Hfiled).
    unfold loans, buildLoanPositions. rewrite length_flat_map_sum.
    rewrite <- (count_by_market owes (map fst (groupByMarket reserves)) Hnd reserves Hfiled).
    rewrite map_map. f_equal. apply map_ext_in.
    intros [market marketReserves] Hin.
    unfold loansOfMarket, mapi. rewrite length_mapi_from.
    unfold borrowedAssetsOf. rewrite length_filter_map. cbn [fst].
    now rewrite <- (Hgroups _ _ Hin).
Qed.

(** ** Health labels and bands *)

(** X8: among valid readings both classifications are monotone: if
    [hf1 <= hf2], [hf1] is not labelled Invalid and [hf2] is finite, then the
    label of [hf2] is at least as good as that of [hf1], and so is its
    portfolio band. *)
Theorem health_classification_is_monotone (hf1 hf2 : float) :
  label (healthLabel hf1) <> "Invalid"%string ->
  is_finite hf2 = true ->
  (hf1 <=? hf2) = true ->
  (labelRank (healthLabel hf1) <= labelRank (healthLabel hf2))%nat
  /\ (bandRank (portfolioHealthFactorBand hf1)
      <= bandRank (portfolioHealthFactorBand hf2))%nat.
Proof.
  intros Hvalid Hfin2 Hle.
  assert (H1 : negb (Js.isFinite hf1) || (hf1 <=? 0) = false).
  { destruct (healthLabel_cases hf1) as [(_ & E & _)|(E & _)]; [congruence|exact E]. }
  destruct (invalid_test hf1 H1) as (_ & Hpos1 & _).
  assert (H2 : negb (Js.isFinite hf2) || (hf2 <=? 0) = false).
  { unfold Js.isFinite. rewrite Hfin2, (valid_above _ _ Hpos1 Hle). reflexivity. }
  split.
  - destruct (healthLabel_cases hf1) as [(E & _)|(_ & C1)]; [congruence|].
    destruct (healthLabel_cases hf2) as [(E & _)|(_ & C2)]; [congruence|].
    unfold labelRank.
    destruct C1 as [(A1 & -> & _)|[(A1 & B1 & -> & _)|[(A1 & B1 & D1 & -> & _)
                   |(A1 & B1 & D1 & -> & _)]]];
    destruct C2 as [(A2 & -> & _)|[(A2 & B2 & -> & _)|[(A2 & B2 & D2 & -> & _)
                   |(A2 & B2 & D2 & -> & _)]]];
    simpl; try lia;
    repeat match goal with
           | H : (hf1 <? ?t) = false |- _ =>
               pose proof (below_threshold hf1 hf2 t Hle H); clear H
           end; congruence.
  - destruct (band_cases hf1) as [(E & _)|(_ & C1)]; [congruence|].
    destruct (band_cases hf2) as [(E & _)|(_ & C2)]; [congruence|].
    unfold bandRank.
    destruct C1 as [(A1 & ->)|[(A1 & B1 & ->)|[(A1 & B1 & D1 & ->)|(A1 & B1 & D1 & ->)]]];
    destruct C2 as [(A2 & ->)|[(A2 & B2 & ->)|[(A2 & B2 & D2 & ->)|(A2 & B2 & D2 & ->)]]];
    simpl; try lia;
    try (rewrite (leb_trans _ _ _ Hle D2) in D1; discriminate);
    repeat match goal with
           | H : (hf1 <? ?t) = false |- _ =>
               pose proof (below_threshold hf1 hf2 t Hle H); clear H
           end; congruence.
Qed.

(** 1.2 is Tight and 1.7 is OK. *)
Lemma health_classification_is_monotone_witness :
  (labelRank (healthLabel 1.2) <= labelRank (healthLabel 1.7))%nat.
Proof.
  apply (health_classification_is_monotone 1.2 1.7); try reflexivity. discriminate.
Defined.

(** X9: the status badge is the danger one ('destructive') exactly when the
    health factor is not finite or is below 1.1; in particular every
    reading [<= 0] is a danger. *)
Theorem danger_badge_condition (hf : float) :
  (tone (healthLabel hf) = BadgeTone.danger
   <-> is_finite hf = false \/ (hf <? 1.1) = true)
  /\ (toBadgeVariant (tone (healthLabel hf)) = BadgeVariant.destructive
      <-> tone (healthLabel hf) = BadgeTone.danger).
Proof.
  split.
  - destruct (healthLabel_cases hf) as [(E & _ & T)|(E & C)].
    + rewrite T. split; [intros _|reflexivity].
      apply orb_true_iff in E. destruct E as [E|E].
      * left. now apply negb_true_iff in E.
      * right. eapply leb_ltb_trans; [exact E|reflexivity].
    + destruct (invalid_test hf E) as (Hfin & _).
      destruct C as [(A & _ & T)|[(A & _ & _ & T)|[(A & _ & _ & _ & T)|(A & _ & _ & _ & T)]]];
        rewrite T; (split; [try discriminate; intros _; now right
                           |try reflexivity; intros [H|H]; congruence]).
  - destruct (tone (healthLabel hf)); simpl; split; congruence.
Qed.

(** A health factor of 0.9 gives the danger badge. *)
Lemma danger_badge_condition_witness :
  tone (healthLabel 0.9) = BadgeTone.danger.
Proof.
  apply (proj2 (proj1 (danger_badge_condition 0.9))). right. reflexivity.
Defined.

(** X10: the health-factor alert of the checklist agrees with the status
    label of the same loan: the alert is on for the labels Danger and Tight
    and off for OK and Safe. *)
Theorem alert_agrees_with_label (loan : option LoanPosition) :
  let m := computeLoanMetrics loan in
  let status := healthLabel (healthFactor m) in
  (label status = "Danger"%string \/ label status = "Tight"%string -> alertHF m = true)
  /\ (label status = "OK"%string \/ label status = "Safe"%string -> alertHF m = false).
Proof.
  intros m status.
  assert (Halert : alertHF m = (healthFactor m <? 1.5)).
  { unfold m. destruct loan; reflexivity. }
  rewrite Halert. subst status.
  destruct (healthLabel_cases (healthFactor m))
    as [(_ & L & _)|(_ & [(A & L & _)|[(A & B & L & _)|[(A & B & D & L & _)
       |(A & B & D & L & _)]]])];
    rewrite L; split; intros [H|H]; try discriminate; auto.
  eapply below_lower_threshold; [|exact A]. reflexivity.
Qed.

(** The sample loan has health factor 1.8, labelled OK. *)
Lemma alert_agrees_with_label_witness :
  alertHF (computeLoanMetrics (Some sampleLoan)) = false.
Proof.
  apply (proj2 (alert_agrees_with_label (Some sampleLoan))). left. reflexivity.
Defined.

(** X11: a loan whose debt is not positive (debt worth 0 included) is shown
    with the label Invalid on the danger badge, while its health-factor
    alert is off. *)
Theorem debt_free_loan_is_labelled_invalid (loan : LoanPosition) :
  (totalBorrowedUsd loan >? 0) = false ->
  let m := computeLoanMetrics (Some loan) in
  healthFactor m = infinity
  /\ label (healthLabel (healthFactor m)) = "Invalid"%string
  /\ toBadgeVariant (tone (healthLabel (healthFactor m))) = BadgeVariant.destructive
  /\ alertHF m = false.
Proof.
  intros Hd m. subst m.
  cbn [computeLoanMetrics healthFactor alertHF]. rewrite Hd. repeat split.
Qed.

(** 30,000 USD of collateral against a debt priced 0. *)
Lemma debt_free_loan_is_labelled_invalid_witness :
  label (healthLabel (healthFactor
           (computeLoanMetrics (Some (singleCollateralLoan 10 3000 0.825 15000 0)))))
  = "Invalid"%string.
Proof.
  apply (debt_free_loan_is_labelled_invalid (singleCollateralLoan 10 3000 0.825 15000 0)).
  reflexivity.
Defined.

(** X12: the portfolio band and the status label read a health factor
    consistently: the band is 'Invalid reading' exactly when the label is
    Invalid and 'Mandatory deleveraging' exactly when the label is Danger or
    Tight; 'Top up collateral or reduce debt' only comes with the label OK,
    and 'Normal operation' only with Safe. *)
Theorem band_agrees_with_label (hf : float) :
  let band := guidance (portfolioHealthFactorBand hf) in
  let status := label (healthLabel hf) in
  (band = "Invalid reading"%string <-> status = "Invalid"%string)
  /\ (band = "Mandatory deleveraging"%string
      <-> status = "Danger"%string \/ status = "Tight"%string)
  /\ (band = "Top up collateral or reduce debt"%string -> status = "OK"%string)
  /\ (band = "Normal operation"%string -> status = "Safe"%string).
Proof.
  intros band status. subst band status.
  destruct (band_cases hf) as [(E & G)|(E & CB)];
    (destruct (healthLabel_cases hf) as [(E' & L & _)|(E' & CL)]; [|]);
    try congruence.
  - rewrite G, L. repeat split; try discriminate; auto.
    intros [H|H]; discriminate.
  - destruct CB as [(A & G)|[(A & B & G)|[(A & B & D & G)|(A & B & D & G)]]];
    destruct CL as [(A' & L & _)|[(A' & B' & L & _)|[(A' & B' & D' & L & _)
                   |(A' & B' & D' & L & _)]]];
    rewrite G, L;
    try (rewrite (below_lower_threshold hf 1.1 1.5 eq_refl A') in A; discriminate);
    try congruence;
    try (rewrite (below_lower_threshold hf 1.8 2 eq_refl B) in D'; discriminate);
    try (pose proof (ltb_leb _ _ D') as Hle;
         rewrite (leb_trans hf 2 2.2 Hle eq_refl) in D; discriminate);
    repeat split; try discriminate; auto;
    try (intros [H|H]; discriminate).
Qed.

(** A health factor of 3 reads 'Normal operation' and is labelled Safe. *)
Lemma band_agrees_with_label_witness :
  label (healthLabel 3) = "Safe"%string.
Proof.
  apply (proj2 (proj2 (proj2 (band_agrees_with_label 3)))). reflexivity.
Defined.

(** ** Portfolio band *)

(** X13: when no loan has a positive debt (no loan at all included), the
    portfolio card reads 'Invalid reading': the average health factor is
    +infinity, or there is no portfolio and the band is computed from NaN. *)
Theorem portfolio_without_debt_reads_invalid (result : option FetchState) :
  (forall state loan, result = Some state -> In loan (loans state) ->
                      (totalBorrowedUsd loan >? 0) = false) ->
  guidance (portfolioHealthBand (portfolio result)) = "Invalid reading"%string
  /\ (forall p, portfolio result = Some p ->
                Portfolio.averageHealthFactor p = infinity).
Proof.
  intros H. destruct result as [state|]; [|split; [reflexivity|discriminate]].
  unfold portfolio.
  destruct (Nat.eqb (List.length (loans state)) 0); [split; [reflexivity|discriminate]|].
  assert (E : Portfolio.averageHealthFactor
                (portfolioOfMetrics
                   (map (fun loan => computeLoanMetrics (Some loan)) (loans state)))
              = infinity).
  { apply no_finite_health_factor. intros m Hm.
    apply in_map_iff in Hm. destruct Hm as (loan & <- & Hloan).
    cbn [computeLoanMetrics healthFactor].
    now rewrite (H state loan eq_refl Hloan). }
  split.
  - unfold portfolioHealthBand. now rewrite E.
  - intros p [= <-]. exact E.
Qed.

(** A wallet whose only loan owes an asset priced 0. *)
Lemma portfolio_without_debt_reads_invalid_witness :
  guidance (portfolioHealthBand
              (portfolio (Some (sampleState [singleCollateralLoan 10 3000 0.825 15000 0]))))
  = "Invalid reading"%string.
Proof.
  apply (portfolio_without_debt_reads_invalid
           (Some (sampleState [singleCollateralLoan 10 3000 0.825 15000 0]))).
  intros state loan [= <-] [<-|[]]. reflexivity.
Defined.

(** ** Unpriced debt *)

(** X14: a loan that [buildLoanPositions] emits for a borrowed asset whose
    ticker has no price carries a debt of zero USD, so its health factor is
    +infinity and its label Invalid, whatever its collateral. *)
Theorem unpriced_debt_is_labelled_invalid :
  forall (Number : string -> float) (pow10 : float -> float)
         (toUpperCase toLowerCase : string -> string)
         (reserves : list Raw.RawUserReserveWithMarket) (prices : PriceMap)
         (loan : LoanPosition),
    In loan (buildLoanPositions Number pow10 toUpperCase toLowerCase reserves prices) ->
    prices (symbol (borrowed loan)) = None ->
    (totalBorrowedUsd loan =? 0) = true
    /\ healthFactor (computeLoanMetrics (Some loan)) = infinity
    /\ label (healthLabel (healthFactor (computeLoanMetrics (Some loan))))
       = "Invalid"%string.
Proof.
  intros Number pow10 toUpperCase toLowerCase reserves prices loan Hloan Hprice.
  pose proof (unpriced_debt_is_zero _ _ _ _ _ _ _ Hloan Hprice) as Hzero.
  split; [exact Hzero|].
  cbn [computeLoanMetrics healthFactor].
  rewrite (eqb0_not_gt0 _ Hzero). split; reflexivity.
Qed.

(** The sample wallet under a price list that knows no ticker. *)
Lemma unpriced_debt_is_labelled_invalid_witness :
  exists loan,
    In loan (buildLoanPositions sampleNumber samplePow10 (fun s => s) (fun s => s)
               sampleReserves (fun _ => None))
    /\ healthFactor (computeLoanMetrics (Some loan)) = infinity.
Proof.
  eexists. split; [left; reflexivity|].
  eapply (unpriced_debt_is_labelled_invalid sampleNumber samplePow10
            (fun s => s) (fun s => s) sampleReserves (fun _ => None)).
  - left. reflexivity.
  - reflexivity.
Defined.

(** ** Loan selection *)

(** X15: the selected loan is always one of the loans of the result, and
    there is one as soon as the result has a loan; it is the first loan with
    the selected id when there is one, and the first loan of the list
    otherwise. *)
Theorem selected_loan_is_a_loan (state : FetchState) (selectedLoanId : string) :
  (forall loan, selectedLoan (Some state) selectedLoanId = Some loan ->
                In loan (loans state))
  /\ (loans state <> [] -> selectedLoan (Some state) selectedLoanId <> None)
  /\ (forall loan,
        find (fun candidate => String.eqb (id candidate) selectedLoanId) (loans state)
        = Some loan ->
        selectedLoan (Some state) selectedLoanId = Some loan /\ id loan = selectedLoanId)
  /\ ((forall loan, In loan (loans state) -> id loan <> selectedLoanId) ->
      selectedLoan (Some state) selectedLoanId = nth_error (loans state) 0).
Proof.
  unfold selectedLoan.
  destruct (loans state) as [|first rest] eqn:El.
  - simpl. repeat split; try discriminate; try congruence.
  - cbn [List.length Nat.eqb nth_error].
    destruct (find _ (first :: rest)) as [found|] eqn:Ef.
    + destruct (find_id_some _ _ _ Ef) as [Hin Hid].
      split; [intros loan [= <-]; exact Hin|].
      split; [discriminate|].
      split; [intros loan [= <-]; auto|].
      intros Hnone. exfalso. exact (Hnone found Hin Hid).
    + split; [intros loan [= <-]; now left|].
      split; [discriminate|].
      split; [discriminate|reflexivity].
Qed.

(** The sample loan is selected whatever the id asked for. *)
Lemma selected_loan_is_a_loan_witness :
  selectedLoan (Some (sampleState [sampleLoan])) "" <> None.
Proof.
  apply (proj1 (proj2 (selected_loan_is_a_loan (sampleState [sampleLoan]) ""))).
  discriminate.
Defined.

(** X16: after a fetch the selection is coherent: with at least one loan,
    the loan then selected carries the selected id; a previous id that is
    still the id of a loan is kept; and without loans the id is empty. *)
Theorem selection_after_fetch (state : FetchState) (previousLoanId : string) :
  let next := nextSelectedLoanId (loans state) previousLoanId in
  (loans state <> [] ->
   exists loan, selectedLoan (Some state) next = Some loan /\ id loan = next)
  /\ ((exists loan, In loan (loans state) /\ id loan = previousLoanId) ->
      next = previousLoanId)
  /\ (loans state = [] -> next = ""%string).
Proof.
  intros next. subst next. unfold nextSelectedLoanId.
  split; [|split].
  - intros Hne.
    destruct (existsb _ (loans state)) eqn:Ex.
    + destruct (existsb_find_id _ _ Ex) as (loan & Hf).
      exists loan. destruct (find_id_some _ _ _ Hf) as [Hin Hid].
      split; [|exact Hid].
      unfold selectedLoan. destruct (loans state) as [|first rest]; [destruct Hin|].
      cbn [List.length Nat.eqb]. now rewrite Hf.
    + destruct (loans state) as [|first rest] eqn:El; [congruence|].
      cbn [nth_error]. exists first.
      unfold selectedLoan. rewrite El. cbn [List.length Nat.eqb find].
      rewrite String.eqb_refl. auto.
  - intros (loan & Hin & Hid).
    replace (existsb _ (loans state)) with true; [reflexivity|].
    symmetry. apply existsb_exists. exists loan. split; [exact Hin|].
    now apply String.eqb_eq.
  - intros ->. reflexivity.
Qed.

(** The sample loan becomes the selection of a wallet that had none. *)
Lemma selection_after_fetch_witness :
  exists loan,
    selectedLoan (Some (sampleState [sampleLoan]))
      (nextSelectedLoanId [sampleLoan] "") = Some loan
    /\ id loan = nextSelectedLoanId [sampleLoan] "".
Proof.
  apply (proj1 (selection_after_fetch (sampleState [sampleLoan]) "")). discriminate.
Defined.

(** ** Fetching the reserves *)

(** X17: a market is fetched without failure exactly when one of its
    endpoints answers with a body free of errors; its records are then those
    of the first such endpoint. Otherwise it yields no record and one
    failure per endpoint, or the one failure of a market without endpoint. *)
Theorem market_follows_first_clean_endpoint :
  forall (GRAPH_API_KEY : option string) (fetch : string -> SubgraphReply)
         (toLowerCase : string -> string) (market : Market.t),
    let endpoints := endpointsOf GRAPH_API_KEY market in
    let result := fetchMarket GRAPH_API_KEY fetch toLowerCase market in
    MarketResult.marketName result = Market.marketName market
    /\ (MarketResult.failures result = [] <->
        exists endpoint, In endpoint endpoints /\ cleanReply (fetch endpoint) = true)
    /\ (forall endpoint,
          find (fun e => cleanReply (fetch e)) endpoints = Some endpoint ->
          MarketResult.reserves result = repliedReserves (fetch endpoint))
    /\ (MarketResult.failures result <> [] ->
        MarketResult.reserves result = []
        /\ List.length (MarketResult.failures result)
           = Nat.max 1 (List.length endpoints)).
Proof.
  intros GRAPH_API_KEY fetch toLowerCase market endpoints result.
  subst endpoints result.
  split; [apply fetchMarket_marketName|].
  destruct (find (fun e => cleanReply (fetch e)) (endpointsOf GRAPH_API_KEY market))
    as [endpoint|] eqn:E.
  - rewrite (fetchMarket_clean _ _ _ _ _ E). cbn [MarketResult.failures MarketResult.reserves].
    apply find_some in E.
    split; [split; [intros _; exists endpoint; exact E|reflexivity]|].
    split; [intros e [= <-]; reflexivity|congruence].
  - destruct (fetchMarket_failed GRAPH_API_KEY fetch toLowerCase _ E) as [H1 H2].
    cbv zeta in H1, H2.
    split; [split|split].
    + intros H. rewrite H in H2. cbn [List.length] in H2. lia.
    + intros (endpoint & Hin & Hc).
      rewrite (find_none _ _ E endpoint Hin) in Hc. discriminate.
    + discriminate.
    + intros _. split; assumption.
Qed.

(** The main market whose hosted endpoint answers without records. *)
Lemma market_follows_first_clean_endpoint_witness :
  MarketResult.reserves
    (fetchMarket None (fun _ => ReplyBody None None) (fun s => s)
       {| Market.marketName := "proto_mainnet_v3";
          Market.graphSubgraphId := "Cd2gEDVeqnjBn1hSeqFMitw8Q1iiyV9FYUZkLNRcL87g";
          Market.fallbackEndpoints :=
            ["https://api.thegraph.com/subgraphs/name/aave/protocol-v3"%string] |})
  = [].
Proof.
  apply (proj1 (proj2 (proj2 (market_follows_first_clean_endpoint
                 None (fun _ => ReplyBody None None) (fun s => s)
                 {| Market.marketName := "proto_mainnet_v3";
                    Market.graphSubgraphId := "Cd2gEDVeqnjBn1hSeqFMitw8Q1iiyV9FYUZkLNRcL87g";
                    Market.fallbackEndpoints :=
                      ["https://api.thegraph.com/subgraphs/name/aave/protocol-v3"%string] |})))
           "https://api.thegraph.com/subgraphs/name/aave/protocol-v3"%string).
  reflexivity.
Defined.

(** X18: [fetchFromAaveSubgraph] returns records exactly when some market
    has an endpoint answering without errors, and throws otherwise; the
    records returned are, market after market in the order of
    [AAVE_MARKETS], those of the first such endpoint of the market, tagged
    with its name: a market that failed contributes nothing. *)
Theorem fetched_records_by_market :
  forall (GRAPH_API_KEY : option string) (fetch : string -> SubgraphReply)
         (toLowerCase : string -> string),
    ((exists records,
         fetchFromAaveSubgraph GRAPH_API_KEY fetch toLowerCase = inl records)
     <-> exists market endpoint,
         In market AAVE_MARKETS /\ In endpoint (endpointsOf GRAPH_API_KEY market)
         /\ cleanReply (fetch endpoint) = true)
    /\ (forall records,
          fetchFromAaveSubgraph GRAPH_API_KEY fetch toLowerCase = inl records ->
          records =
          flat_map (fun market =>
                      match find (fun e => cleanReply (fetch e))
                                 (endpointsOf GRAPH_API_KEY market) with
                      | Some endpoint =>
                          map (tagged (Market.marketName market))
                              (repliedReserves (fetch endpoint))
                      | None => []
                      end) AAVE_MARKETS).
Proof.
  intros GRAPH_API_KEY fetch toLowerCase. unfold fetchFromAaveSubgraph. split.
  - apply collect_succeeds_iff.
  - intros records. apply collect_success.
Qed.

(** With a key, the gateway of the main market answering one record. *)
Lemma fetched_records_by_market_witness :
  exists records,
    fetchFromAaveSubgraph (Some "k"%string)
      (fun _ => ReplyBody None (Some [Raw.withoutMarket (sampleReserve "5" "0" "WETH" "m")]))
      (fun s => s) = inl records.
Proof.
  apply (proj1 (fetched_records_by_market (Some "k"%string)
                  (fun _ => ReplyBody None
                              (Some [Raw.withoutMarket (sampleReserve "5" "0" "WETH" "m")]))
                  (fun s => s))).
  eexists _, _. split; [left; reflexivity|]. split; [left; reflexivity|reflexivity].
Defined.

(** X19: without a Graph API key only the main market can be read: every
    record returned is tagged proto_mainnet_v3 and comes from the hosted
    endpoint; and when that endpoint answers with an error saying that the
    endpoint has been removed, the call throws the message asking for a
    key. *)
Theorem without_key_only_main_market :
  forall (GRAPH_API_KEY : option string) (fetch : string -> SubgraphReply)
         (toLowerCase : string -> string),
    JsText.truthy GRAPH_API_KEY = false ->
    let hosted := "https://api.thegraph.com/subgraphs/name/aave/protocol-v3"%string in
    (forall records,
        fetchFromAaveSubgraph GRAPH_API_KEY fetch toLowerCase = inl records ->
        cleanReply (fetch hosted) = true
        /\ records = map (tagged "proto_mainnet_v3") (repliedReserves (fetch hosted)))
    /\ (forall messages reserves,
          fetch hosted = ReplyBody (Some messages) reserves ->
          existsb (fun message =>
                     JsText.includes (toLowerCase message) "endpoint has been removed")
                  messages = true ->
          fetchFromAaveSubgraph GRAPH_API_KEY fetch toLowerCase
          = inr "Aave subgraph hosted-service endpoints were deprecated. Set VITE_THE_GRAPH_API_KEY in your .env (The Graph API key) and restart the dev server."%string).
Proof.
  intros GRAPH_API_KEY fetch toLowerCase Hkey hosted. split.
  - intros records H.
    assert (Hclean : cleanReply (fetch hosted) = true).
    { destruct (proj1 (collect_succeeds_iff GRAPH_API_KEY fetch toLowerCase AAVE_MARKETS)
                  (ex_intro _ records H)) as (market & endpoint & Hm & He & Hc).
      unfold endpointsOf in He. rewrite Hkey in He.
      destruct Hm as [<- | [<- | []]]; cbn in He; [|destruct He].
      destruct He as [<- | []]. exact Hc. }
    split; [exact Hclean|].
    apply collect_success in H. revert H.
    unfold AAVE_MARKETS, endpointsOf. rewrite Hkey.
    cbn [flat_map Market.fallbackEndpoints Market.marketName List.app find].
    fold hosted. rewrite Hclean. intros ->. now rewrite app_nil_r.
  - intros messages reserves Hreply Hremoved.
    assert (Hlen : Nat.eqb (List.length messages) 0 = false).
    { destruct messages; [discriminate|reflexivity]. }
    unfold fetchFromAaveSubgraph, AAVE_MARKETS, fetchMarket, endpointsOf.
    rewrite Hkey.
    cbn [map Market.fallbackEndpoints Market.marketName List.app List.length Nat.eqb
         tryEndpoints].
    fold hosted. rewrite Hreply, Hlen. cbn [negb]. rewrite Hremoved.
    unfold collectMarketResults. rewrite Hkey.
    reflexivity.
Qed.

(** The hosted endpoint answering that it has been removed. *)
Lemma without_key_only_main_market_witness :
  fetchFromAaveSubgraph None
    (fun _ => ReplyBody (Some ["this endpoint has been removed"%string]) None)
    (fun s => s)
  = inr "Aave subgraph hosted-service endpoints were deprecated. Set VITE_THE_GRAPH_API_KEY in your .env (The Graph API key) and restart the dev server."%string.
Proof.
  apply (proj2 (without_key_only_main_market None
                  (fun _ => ReplyBody (Some ["this endpoint has been removed"%string]) None)
                  (fun s => s) eq_refl)
           ["this endpoint has been removed"%string] None);
    reflexivity.
Defined.

(** ** Prices *)

(** X20: [fetchUsdPrices] prices only tickers of the CoinGecko table, and
    only when one of the symbols asked is in the table. When it is, and the
    service answers, every ticker of the table gets the price that the
    answer carries for its id, whether it was asked or not. *)
Theorem prices_only_for_listed_tickers :
  forall (toUpperCase : string -> string) (fetch : list string -> PriceReply)
         (symbols : list string),
    (forall name usd,
        fetchUsdPrices toUpperCase fetch symbols name = Some usd ->
        (exists symbol id,
            In (symbol, id) COINGECKO_IDS_BY_SYMBOL /\ toUpperCase symbol = name)
        /\ (exists asked,
               In asked symbols
               /\ In (toUpperCase asked) (map fst COINGECKO_IDS_BY_SYMBOL)))
    /\ (forall usdOf,
          (forall symbol, In symbol (map fst COINGECKO_IDS_BY_SYMBOL) ->
                          toUpperCase symbol = symbol) ->
          (exists asked,
              In asked symbols
              /\ In (toUpperCase asked) (map fst COINGECKO_IDS_BY_SYMBOL)) ->
          (forall ids, fetch ids = PriceBody usdOf) ->
          forall symbol id,
            In (symbol, id) COINGECKO_IDS_BY_SYMBOL ->
            fetchUsdPrices toUpperCase fetch symbols symbol = usdOf id).
Proof.
  intros toUpperCase fetch symbols. split.
  - intros name usd. apply fetchUsdPrices_from_table.
  - intros usdOf Hupper (asked & Hasked & Hknown) Hfetch symbol id Hin.
    unfold fetchUsdPrices.
    destruct (coingeckoId COINGECKO_IDS_BY_SYMBOL (toUpperCase asked)) as [i|] eqn:Ec;
      [|apply coingeckoId_None in Ec; contradiction].
    assert (Hi : In i (flat_map
                         (fun symbol =>
                            match coingeckoId COINGECKO_IDS_BY_SYMBOL (toUpperCase symbol) with
                            | Some id => if String.eqb id "" then [] else [id]
                            | None => []
                            end) symbols)).
    { apply in_flat_map. exists asked. split; [exact Hasked|].
      rewrite Ec, (table_ids_not_empty _ _ Ec). now left. }
    destruct (distinct _) as [|d ds] eqn:Ed.
    { apply distinct_nil in Ed. rewrite Ed in Hi. destruct Hi. }
    cbn [List.length Nat.eqb]. rewrite Hfetch.
    assert (Hkeys : map (fun entry : string * string => toUpperCase (fst entry))
                        COINGECKO_IDS_BY_SYMBOL
                    = map fst COINGECKO_IDS_BY_SYMBOL).
    { apply map_ext_in. intros [s j] Hs. apply Hupper. apply (in_map fst _ _ Hs). }
    rewrite <- (Hupper symbol (in_map fst _ _ Hin)) at 1.
    rewrite (recorded_entry toUpperCase usdOf COINGECKO_IDS_BY_SYMBOL (fun _ => None)
               symbol id).
    + now destruct (usdOf id).
    + rewrite Hkeys. apply table_keys_NoDup.
    + exact Hin.
Qed.

(** The service knowing the price of WETH only. *)
Lemma prices_only_for_listed_tickers_witness :
  fetchUsdPrices (fun s => s)
    (fun _ => PriceBody (fun id => if String.eqb id "weth" then Some 3000 else None))
    ["WETH"%string] "WETH"%string
  = Some 3000.
Proof.
  apply (proj2 (prices_only_for_listed_tickers (fun s => s)
                  (fun _ => PriceBody (fun id => if String.eqb id "weth"
                                                 then Some 3000 else None))
                  ["WETH"%string])
           (fun id => if String.eqb id "weth" then Some 3000 else None)
           (fun _ _ => eq_refl)
           (ex_intro _ "WETH"%string
              (conj (or_introl eq_refl) (or_intror (or_introl eq_refl))))
           (fun _ => eq_refl)
           "WETH"%string "weth"%string (or_intror (or_introl eq_refl))).
Defined.

(** ** The loans of a wallet *)

(** X21: when [fetchLoans] obtains a state, it is for the wallet asked,
    every loan in it belongs to one of the two configured markets, and a
    loan whose borrowed ticker is not in the CoinGecko table has a debt of
    zero USD, hence an infinite health factor and the label Invalid. *)
Theorem fetched_loans_markets_and_prices :
  forall (GRAPH_API_KEY : option string) (fetchReserves : string -> SubgraphReply)
         (fetchPrices : list string -> PriceReply)
         (Number : string -> float) (pow10 : float -> float)
         (toUpperCase toLowerCase : string -> string)
         (updatedAt : float) (toISOString : float -> string)
         (normalizedWallet : string) (state : FetchState),
    fetchLoans GRAPH_API_KEY fetchReserves fetchPrices Number pow10
      toUpperCase toLowerCase updatedAt toISOString normalizedWallet = inl state ->
    wallet state = normalizedWallet
    /\ forall loan, In loan (loans state) ->
         (marketName loan = "proto_mainnet_v3"%string
          \/ marketName loan = "proto_lido_v3"%string)
         /\ (~ In (symbol (borrowed loan))
                 (map (fun entry => toUpperCase (fst entry)) COINGECKO_IDS_BY_SYMBOL) ->
             (totalBorrowedUsd loan =? 0) = true
             /\ healthFactor (computeLoanMetrics (Some loan)) = infinity
             /\ label (healthLabel (healthFactor (computeLoanMetrics (Some loan))))
                = "Invalid"%string).
Proof.
  intros GRAPH_API_KEY fetchReserves fetchPrices Number pow10 toUpperCase toLowerCase
         updatedAt toISOString normalizedWallet state.
  unfold fetchLoans.
  destruct (fetchFromAaveSubgraph GRAPH_API_KEY fetchReserves toLowerCase)
    as [reserves|message] eqn:Ef; [|discriminate].
  intros [= <-]. cbn [wallet loans]. split; [reflexivity|].
  intros loan Hloan. split.
  - destruct (loan_has_record _ _ _ _ _ _ _ Hloan) as (entry & Hentry & <- & _).
    unfold fetchFromAaveSubgraph in Ef. apply collect_success in Ef.
    rewrite Ef in Hentry. apply in_flat_map in Hentry.
    destruct Hentry as (market & Hmarket & Hentry).
    destruct (find _ (endpointsOf GRAPH_API_KEY market)); [|destruct Hentry].
    apply in_map_iff in Hentry. destruct Hentry as (reserve & <- & _).
    cbn [tagged Raw.__marketName].
    destruct Hmarket as [<- | [<- | []]]; [left|right]; reflexivity.
  - intros Hunlisted.
    assert (Hprice : fetchUsdPrices toUpperCase fetchPrices
                       (distinct (map (fun entry : Raw.RawUserReserveWithMarket =>
                                         Raw.symbol (Raw.reserve entry)) reserves))
                       (symbol (borrowed loan)) = None).
    { destruct (fetchUsdPrices _ _ _ (symbol (borrowed loan))) as [usd|] eqn:E;
        [|reflexivity].
      exfalso. apply Hunlisted.
      destruct (proj1 (fetchUsdPrices_from_table _ _ _ _ _ E)) as (s & i & Hin & <-).
      apply (in_map (fun entry => toUpperCase (fst entry)) _ _ Hin). }
    pose proof (unpriced_debt_is_zero _ _ _ _ _ _ _ Hloan Hprice) as Hzero.
    split; [exact Hzero|].
    cbn [computeLoanMetrics healthFactor].
    rewrite (eqb0_not_gt0 _ Hzero). split; reflexivity.
Qed.

(** The sample wallet read from the hosted endpoint while the price service
    is down. *)
Lemma fetched_loans_markets_and_prices_witness :
  exists state,
    fetchLoans None sampleSubgraph (fun _ => PriceThrows) sampleNumber samplePow10
      (fun s => s) (fun s => s) 0 (fun _ => "2024-01-01T00:00:00.000Z"%string)
      "0x0000000000000000000000000000000000000001" = inl state
    /\ wallet state = "0x0000000000000000000000000000000000000001"%string.
Proof.
  eexists. split; [reflexivity|].
  apply (fetched_loans_markets_and_prices None sampleSubgraph (fun _ => PriceThrows)
           sampleNumber samplePow10 (fun s => s) (fun s => s) 0
           (fun _ => "2024-01-01T00:00:00.000Z"%string)
           "0x0000000000000000000000000000000000000001" _ eq_refl).
Defined.
